(** * helper/geojsonify.js: conversion of search documents to a GeoJSON
      FeatureCollection

    A shallow embedding of [geojsonifyPlaces] and of the functions it calls
    ([geojsonifyPlace], [addBBoxPerFeature], [extractExtentPoints],
    [computeBBox], [addISO3166PropsPerFeature]), followed by the properties
    of the natural-language specification that concern them.

    JavaScript values are a small universe [value]; objects are finite maps
    from property names to values, so that an absent key and a key holding
    [undefined] stay distinct.  Logging and exceptions are explicit: a
    computation returns the diagnostics it emitted together with either a
    result or the exception that escaped. *)

From Stdlib Require Import Floats Ascii.
From stdpp Require Import base option list list_monad strings gmap fin_maps pretty.

Local Set Warnings "-register-all".
Local Open Scope string_scope.
Local Open Scope list_scope.
Local Open Scope stdpp_scope.

(** ** JavaScript values *)

(** Numbers are IEEE-754 binary64, the kernel's primitive floats. *)
Inductive value : Type :=
  | VUndefined
  | VNull
  | VBool (b : bool)
  | VNum (n : float)
  | VStr (s : string)
  | VArr (items : list value)
  | VObj (fields : gmap string value).

Abbreviation object := (gmap string value).

(** ToBoolean: [undefined], [null], [false], [0], [-0], [NaN] and the
    empty string are falsy; everything else, every object and array
    included, is truthy. *)
Definition truthy (v : value) : bool :=
  match v with
  | VUndefined | VNull => false
  | VBool b => b
  | VNum n => negb (PrimFloat.is_zero n || PrimFloat.is_nan n)
  | VStr s => negb (bool_decide (s = ""))
  | VArr _ | VObj _ => true
  end.

(** [a || b] yields its first operand when that is truthy, else the second. *)
Definition js_or (a b : value) : value := if truthy a then a else b.

Definition nullish (v : value) : bool :=
  match v with
  | VUndefined | VNull => true
  | _ => false
  end.

(** Reading the property [key] of a value that is neither [undefined] nor
    [null].  The keys read in this file are fixed names, none of them an
    array index or [length], so primitives and arrays answer [undefined].
    On [undefined] and [null] this is lodash's [_.get], which answers
    [undefined] as well. *)
Definition get (v : value) (key : string) : value :=
  match v with
  | VObj fields => default VUndefined (fields !! key)
  | _ => VUndefined
  end.

(** Walking a path: every key is an own property of the object reached so
    far. *)
Fixpoint has_path (v : value) (path : list string) : bool :=
  match path, v with
  | [key], VObj fields => bool_decide (is_Some (fields !! key))
  | key :: rest, VObj fields =>
      match fields !! key with
      | Some v' => has_path v' rest
      | None => false
      end
  | _, _ => false
  end.

(** lodash [_.has(object, 'a.b')].  The path is given by its keys.  lodash
    first looks for the whole dotted string among the keys of the object
    and, when it is one, takes it as a single key ([castPath]); only
    otherwise does it walk the path. *)
Definition has (v : value) (path : list string) : bool :=
  match v with
  | VObj fields =>
      if bool_decide (is_Some (fields !! String.concat "." path))
      then true
      else has_path v path
  | _ => false
  end.

(** [o[key] = v] with a computed key.  Assigning ["__proto__"] goes to the
    prototype setter and stores no key of its own. *)
Definition assign (o : gmap string value) (key : string) (v : value)
    : gmap string value :=
  if bool_decide (key = "__proto__") then o else <[key := v]> o.

(** [Object.assign(target, source)]: every own key of the source is
    assigned to the target. *)
Definition Object_assign (target source : gmap string value) : gmap string value :=
  delete "__proto__" source ∪ target.

Definition isString (v : value) : bool :=
  match v with
  | VStr _ => true
  | _ => false
  end.

(** lodash [_.isEmpty]: no characters, no items, no own keys; primitives
    other than strings count as empty. *)
Definition isEmpty (v : value) : bool :=
  match v with
  | VStr s => bool_decide (s = "")
  | VArr items => bool_decide (items = [])
  | VObj fields => bool_decide (fields = ∅)
  | _ => true
  end.

(** lodash [_.size]. *)
Definition size (v : value) : nat :=
  match v with
  | VStr s => String.length s
  | VArr items => length items
  | VObj fields => base.size fields
  | _ => 0
  end.

(** ** GeoJSON shapes *)

Record Geometry := {
  type : string;
  coordinates : list value
}.

Record Feature := {
  geometry : Geometry;
  properties : object;
  bbox : option value
}.

Record FeatureCollection := {
  features : list Feature;
  collection_bbox : option value
}.

Definition set_bbox (feature : Feature) (b : value) : Feature :=
  {| geometry := geometry feature; properties := properties feature; bbox := Some b |}.

Definition set_properties (feature : Feature) (props : object) : Feature :=
  {| geometry := geometry feature; properties := props; bbox := bbox feature |}.

(** ** Exceptions and diagnostics *)

Inductive exn : Type :=
  | TypeError
  | Raised (reason : value).

Inductive outcome (A : Type) : Type :=
  | Ok (a : A)
  | Throw (e : exn).
Arguments Ok {A} a.
Arguments Throw {A} e.

(** One constructor per call of the logger in the file. *)
Inductive diagnostic : Type :=
  | warn_no_center_point
  | warn_no_name (gid : value)
  | warn_addendum (gid : value) (namespace : string)
  | error_bbox (e : exn)
  | error_geojson (geojsonExtentPoints : FeatureCollection).

(** A computation: what was logged, then how it ended.  Diagnostics logged
    before an exception stay logged. *)
Definition M (A : Type) : Type := list diagnostic * outcome A.

#[global] Instance M_ret : MRet M := λ A a, ([], Ok a).

#[global] Instance M_bind : MBind M := λ A B k m,
  match m with
  | (logs, Ok a) => (logs ++ (k a).1, (k a).2)
  | (logs, Throw e) => (logs, Throw e)
  end.

Definition log (d : diagnostic) : M unit := ([d], Ok tt).

Definition throw {A} (e : exn) : M A := ([], Throw e).

(** [v.key]: a TypeError when [v] is [undefined] or [null]. *)
Definition member (v : value) (key : string) : M value :=
  if nullish v then throw TypeError else mret (get v key).

(** [Array.prototype.filter] with a predicate that may log. *)
Fixpoint filterM {A} (p : A → M bool) (l : list A) : M (list A) :=
  match l with
  | [] => mret []
  | x :: l' => keep ← p x; kept ← filterM p l'; mret (if keep : bool then x :: kept else kept)
  end.

(** A loop threading an accumulator through the items of a list. *)
Fixpoint foldM {A B} (f : B → A → M B) (acc : B) (l : list A) : M B :=
  match l with
  | [] => mret acc
  | x :: l' => acc' ← f acc x; foldM f acc' l'
  end.

(** ** Collaborators

    The modules the file requires and ECMAScript's [parseFloat].  None of
    them is part of the file; each is taken with the signature the
    specification gives it (section 6, collaborator contracts). *)

Record gid_components := {
  gid_source : value;
  gid_layer : value;
  gid_id : value
}.

Class Collaborators := {
  (** [require('./decode_gid')] *)
  decode_gid : value → gid_components;
  (** [new Document(source, layer, id).getGid()] *)
  Document_getGid : value → value → value → value;
  (** [field.getStringValue] *)
  getStringValue : value → value;
  (** [require('./geojsonify_place_details')] *)
  collectDetails : value → value → object;
  (** [codec.decode]; it may throw *)
  codec_decode : value → outcome value;
  (** [iso3166.info] *)
  iso3166_info : value → value;
  (** [require('@mapbox/geojson-extent')]; it may throw *)
  extent : FeatureCollection → outcome value;
  parseFloat : value → float;
  (** The order in which [for..in] visits the own keys of an object:
      integer keys in ascending order, then the other keys in the order
      in which they were inserted, which a finite map does not record.
      It is taken as given; all that is known of it is that every entry
      is visited once. *)
  for_in : object → list (string * value);
  for_in_entries : ∀ o, for_in o ≡ₚ map_to_list o
}.

(** Modelled from the spec: [GeoJSON.parse(items, { Point: ['lat', 'lng'] })]
    of the geojson package, which is not part of the file.  Section 4.2,
    step 4: one Point-geometry Feature per record with coordinates
    [[lng, lat]] and properties equal to the record, order preserved; no
    [bbox] is set (section 6 makes it optional and steps 5 and 7 add it). *)
Definition getFeature (item : object) : Feature :=
  {| geometry := {| type := "Point";
                    coordinates := [get (VObj item) "lng"; get (VObj item) "lat"] |};
     properties := item;
     bbox := None |}.

Definition GeoJSON_parse (items : list object) : FeatureCollection :=
  {| features := getFeature <$> items; collection_bbox := None |}.

Section geojsonify.
Context `{!Collaborators}.

(** ** geojsonifyPlace *)

(** The pairs a [for (key in v)] loop visits, with [v[key]]: the entries of
    an object in the order [for_in] gives, the items of an array and the
    characters of a string by index. *)
Definition entries (v : value) : list (string * value) :=
  match v with
  | VObj fields => for_in fields
  | VArr items => imap (λ i item, (pretty i, item)) items
  | VStr s => imap (λ i c, (pretty i, VStr (String c ""))) (String.list_ascii_of_string s)
  | _ => []
  end.

(** The [try]/[catch] inside the loop over [place.addendum]. *)
Definition decode_namespace (gid : value) (addendum : object)
    (entry : string * value) : M object :=
  match codec_decode entry.2 with
  | Ok decoded => mret (assign addendum entry.1 decoded)
  | Throw _ => log (warn_addendum gid entry.1);; mret addendum
  end.

Definition geojsonifyPlace (params place : value) : M object :=
  _id ← member place "_id";
  let gid_components := decode_gid _id in
  source ← member place "source";
  layer ← member place "layer";
  bounding_box ← member place "bounding_box";
  center_point ← member place "center_point";
  lat ← member center_point "lat";
  center_point' ← member place "center_point";
  lon ← member center_point' "lon";
  let doc : object :=
    {[ "id" := gid_id gid_components;
       "gid" := Document_getGid source layer (gid_id gid_components);
       "layer" := layer;
       "source" := source;
       "source_id" := gid_id gid_components;
       "country_code" := VUndefined;
       "bounding_box" := bounding_box;
       "lat" := VNum (parseFloat lat);
       "lng" := VNum (parseFloat lon) ]} in
  doc ← (if has place ["name"; "default"]
         then
           name ← member place "name";
           default ← member name "default";
           mret (<["name" := getStringValue default]> doc)
         else log (warn_no_name (get (VObj doc) "gid"));; mret doc);
  let doc := Object_assign doc (collectDetails params place) in
  doc ← (if has place ["addendum"]
         then
           addendum ← foldM (decode_namespace (get (VObj doc) "gid")) ∅
                            (entries (get place "addendum"));
           mret (if bool_decide (base.size addendum ≠ 0)
                 then <["addendum" := VObj addendum]> doc
                 else doc)
         else mret doc);
  mret (if truthy (get place "debug")
        then <["debug" := get place "debug"]> doc
        else doc).

(** ** addBBoxPerFeature *)

Definition addBBox (feature : Feature) : Feature :=
  let bounding_box := get (VObj (properties feature)) "bounding_box" in
  let feature :=
    if truthy bounding_box
    then set_bbox feature (VArr [ get bounding_box "min_lon";
                                  get bounding_box "min_lat";
                                  get bounding_box "max_lon";
                                  get bounding_box "max_lat" ])
    else feature in
  set_properties feature (delete "bounding_box" (properties feature)).

Definition addBBoxPerFeature (geojson : FeatureCollection) : FeatureCollection :=
  {| features := addBBox <$> features geojson;
     collection_bbox := collection_bbox geojson |}.

(** ** extractExtentPoints *)

Definition point (lng lat : value) : object := {[ "lng" := lng; "lat" := lat ]}.

Definition extractExtentPoints (geodata : list object) : list object :=
  foldl (λ extentPoints place,
           let bounding_box := get (VObj place) "bounding_box" in
           if truthy bounding_box
           then (extentPoints
                   ++ [point (get bounding_box "min_lon") (get bounding_box "min_lat")])
                   ++ [point (get bounding_box "max_lon") (get bounding_box "max_lat")]
           else extentPoints ++ [point (get (VObj place) "lng") (get (VObj place) "lat")])
        [] geodata.

(** ** computeBBox *)

Definition computeBBox (geojson geojsonExtentPoints : FeatureCollection)
    : M FeatureCollection :=
  match extent geojsonExtentPoints with
  | Ok bbox =>
      mret (if truthy bbox
            then {| features := features geojson; collection_bbox := Some bbox |}
            else geojson)
  | Throw e =>
      log (error_bbox e);;
      log (error_geojson geojsonExtentPoints);;
      mret geojson
  end.

(** ** addISO3166PropsPerFeature *)

Definition addISO3166Props (feature : Feature) : Feature :=
  let code := js_or (js_or (get (VObj (properties feature)) "country_a")
                           (get (VObj (properties feature)) "dependency_a"))
                    (VStr "") in
  if negb (isString code) || isEmpty code then feature else
  let info := iso3166_info code in
  let alpha2 := get info "alpha2" in
  if negb (isString alpha2) || bool_decide (size alpha2 ≠ 2) then feature else
  set_properties feature (<["country_code" := alpha2]> (properties feature)).

Definition addISO3166PropsPerFeature (geojson : FeatureCollection) : FeatureCollection :=
  {| features := addISO3166Props <$> features geojson;
     collection_bbox := collection_bbox geojson |}.

(** ** geojsonifyPlaces *)

(** [docs.filter(...).map(geojsonifyPlace.bind(null, params))] *)
Definition geodata (params : value) (docs : list value) : M (list object) :=
  survivors ← filterM (λ doc,
                 if negb (has doc ["center_point"])
                 then log warn_no_center_point;; mret false
                 else mret true) docs;
  mapM (geojsonifyPlace params) survivors.

Definition geojsonifyPlaces (params : value) (docs : list value) : M FeatureCollection :=
  geodata ← geodata params docs;
  let extentPoints := extractExtentPoints geodata in
  let geojson := GeoJSON_parse geodata in
  let geojsonExtentPoints := GeoJSON_parse extentPoints in
  let geojson := addBBoxPerFeature geojson in
  let geojson := addISO3166PropsPerFeature geojson in
  computeBBox geojson geojsonExtentPoints.

(** ** The result of geojsonifyPlace, stage by stage

    [geojsonifyPlace] raises when [place.center_point] is [undefined] or
    [null], and when [_.has(place, 'name.default')] holds while
    [place.name] is [undefined] or [null] (the dotted string being itself
    a key of the place).  [transformable] says that neither happens. *)

Definition transformable (place : value) : bool :=
  negb (nullish (get place "center_point"))
  && (negb (has place ["name"; "default"]) || negb (nullish (get place "name"))).

(** Pure readings of what [geojsonifyPlace] builds and logs when no access
    raises; [geojsonifyPlace_eval] below proves them to be what it
    returns. *)

Definition base_doc (place : value) : object :=
  let gid_components := decode_gid (get place "_id") in
  {[ "id" := gid_id gid_components;
     "gid" := Document_getGid (get place "source") (get place "layer")
                              (gid_id gid_components);
     "layer" := get place "layer";
     "source" := get place "source";
     "source_id" := gid_id gid_components;
     "country_code" := VUndefined;
     "bounding_box" := get place "bounding_box";
     "lat" := VNum (parseFloat (get (get place "center_point") "lat"));
     "lng" := VNum (parseFloat (get (get place "center_point") "lon")) ]}.

Definition named_doc (place : value) : object :=
  if has place ["name"; "default"]
  then <["name" := getStringValue (get (get place "name") "default")]> (base_doc place)
  else base_doc place.

Definition name_warnings (place : value) : list diagnostic :=
  if has place ["name"; "default"]
  then []
  else [warn_no_name (get (VObj (base_doc place)) "gid")].

Definition merged_doc (params place : value) : object :=
  Object_assign (named_doc place) (collectDetails params place).

Definition decode_ok (blob : value) : option value :=
  match codec_decode blob with
  | Ok decoded => Some decoded
  | Throw _ => None
  end.

Definition decoded_entries (es : list (string * value)) (acc : object) : object :=
  foldl (λ acc entry,
           match decode_ok entry.2 with
           | Some decoded => assign acc entry.1 decoded
           | None => acc
           end) acc es.

Definition decode_warnings (gid : value) (es : list (string * value)) : list diagnostic :=
  omap (λ entry,
          match decode_ok entry.2 with
          | Some _ => None
          | None => Some (warn_addendum gid entry.1)
          end) es.

Definition with_addendum (params place : value) : object :=
  let doc := merged_doc params place in
  if has place ["addendum"]
  then
    let addendum := decoded_entries (entries (get place "addendum")) ∅ in
    if bool_decide (base.size addendum ≠ 0)
    then <["addendum" := VObj addendum]> doc
    else doc
  else doc.

Definition addendum_warnings (params place : value) : list diagnostic :=
  if has place ["addendum"]
  then decode_warnings (get (VObj (merged_doc params place)) "gid")
                       (entries (get place "addendum"))
  else [].

Definition transformed (params place : value) : object :=
  let doc := with_addendum params place in
  if truthy (get place "debug")
  then <["debug" := get place "debug"]> doc
  else doc.

(** What becomes of one record after [GeoJSON.parse], [addBBoxPerFeature]
    and [addISO3166PropsPerFeature]. *)
Definition finish (record : object) : Feature :=
  addISO3166Props (addBBox (getFeature record)).

Definition place_warnings (params place : value) : list diagnostic :=
  name_warnings place ++ addendum_warnings params place.

(** The collection [bbox] that [computeBBox] leaves, and what it logs. *)
Definition computed_bbox (geojsonExtentPoints : FeatureCollection) : option value :=
  match extent geojsonExtentPoints with
  | Ok bbox => if truthy bbox then Some bbox else None
  | Throw _ => None
  end.

Definition bbox_errors (geojsonExtentPoints : FeatureCollection) : list diagnostic :=
  match extent geojsonExtentPoints with
  | Ok _ => []
  | Throw e => [error_bbox e; error_geojson geojsonExtentPoints]
  end.

(** ** Readings of the specification, to compare the code with *)

(** Section 3: an ExtentPoint is a [{lng, lat}] pair.  Written here from
    the empty object, apart from the code's object literal. *)
Definition spec_ExtentPoint (lng lat : value) : object :=
  <["lat" := lat]> (<["lng" := lng]> ∅).

(** Section 4.2, step 3: the extent points one record contributes, the two
    opposite corners [(min_lon, min_lat)] and [(max_lon, max_lat)] of its
    bounding_box or else its single [(lng, lat)] point. *)
Definition spec_extent_points (record : object) : list object :=
  match record !! "bounding_box" with
  | Some box =>
      if truthy box
      then [ spec_ExtentPoint (get box "min_lon") (get box "min_lat");
             spec_ExtentPoint (get box "max_lon") (get box "max_lat") ]
      else [ spec_ExtentPoint (default VUndefined (record !! "lng"))
                              (default VUndefined (record !! "lat")) ]
  | None => [ spec_ExtentPoint (default VUndefined (record !! "lng"))
                               (default VUndefined (record !! "lat")) ]
  end.



End geojsonify.

(** The five keys that identify a record. *)
Definition identifier_keys : list string :=
  ["id"; "gid"; "layer"; "source"; "source_id"].

(** Section 4.1, step 5: the keys the Detail Collector must not produce. *)
Definition reserved_keys : list string :=
  ["id"; "gid"; "layer"; "source"; "source_id"; "lat"; "lng"; "bounding_box"].

(** Two sets of collaborators that give the same answer to every question. *)
Definition same_answers (C1 C2 : Collaborators) : Prop :=
  (∀ v, @decode_gid C1 v = @decode_gid C2 v) ∧
  (∀ s l i, @Document_getGid C1 s l i = @Document_getGid C2 s l i) ∧
  (∀ v, @getStringValue C1 v = @getStringValue C2 v) ∧
  (∀ p d, @collectDetails C1 p d = @collectDetails C2 p d) ∧
  (∀ v, @codec_decode C1 v = @codec_decode C2 v) ∧
  (∀ v, @iso3166_info C1 v = @iso3166_info C2 v) ∧
  (∀ g, @extent C1 g = @extent C2 g) ∧
  (∀ v, @parseFloat C1 v = @parseFloat C2 v).

(** ** Stand-ins for the collaborators

    Small executable collaborators used to run the embedding on concrete
    documents.  They follow the contracts of section 6 on the inputs used
    below and claim nothing beyond that. *)
Module Fixture.

Fixpoint before_colon (s : string) : string :=
  match s with
  | EmptyString => EmptyString
  | String c rest => if Ascii.eqb c ":"%char then EmptyString else String c (before_colon rest)
  end.

Fixpoint after_colon (s : string) : string :=
  match s with
  | EmptyString => EmptyString
  | String c rest => if Ascii.eqb c ":"%char then rest else after_colon rest
  end.

(** ["source:layer:id"] split at its first two colons. *)
Definition decode_gid (gid : value) : gid_components :=
  match gid with
  | VStr s =>
      {| gid_source := VStr (before_colon s);
         gid_layer := VStr (before_colon (after_colon s));
         gid_id := VStr (after_colon (after_colon s)) |}
  | _ => {| gid_source := VUndefined; gid_layer := VUndefined; gid_id := VUndefined |}
  end.

Definition Document_getGid (source layer id : value) : value :=
  match source, layer, id with
  | VStr s, VStr l, VStr i => VStr (s +:+ ":" +:+ l +:+ ":" +:+ i)
  | _, _, _ => VUndefined
  end.

Definition getStringValue (v : value) : value :=
  match v with
  | VStr s => VStr s
  | VArr (first :: _) => first
  | _ => VStr ""
  end.

(** Copies the two administrative codes of the place, when it has them. *)
Definition collectDetails (params place : value) : object :=
  match place with
  | VObj fields =>
      filter (λ kv, kv.1 = "country_a" ∨ kv.1 = "dependency_a") fields
  | _ => ∅
  end.

(** Blobs that open a JSON object decode; anything else is rejected. *)
Definition codec_decode (blob : value) : outcome value :=
  match blob with
  | VStr (String "{"%char rest) => Ok (VObj {[ "json" := blob ]})
  | _ => Throw (Raised (VStr "SyntaxError"))
  end.

Definition country (alpha2 alpha3 : string) : value :=
  VObj {[ "alpha2" := VStr alpha2; "alpha3" := VStr alpha3 ]}.

Definition iso3166_info (code : value) : value :=
  match code with
  | VStr "US" | VStr "USA" => country "US" "USA"
  | VStr "FR" | VStr "FRA" => country "FR" "FRA"
  | VStr "PR" | VStr "PRI" => country "PR" "PRI"
  | _ => VUndefined
  end.

Definition coordinate_pairs (geojson : FeatureCollection) : option (list (float * float)) :=
  mapM (λ feature,
          match coordinates (geometry feature) with
          | [VNum lng; VNum lat] =>
              if PrimFloat.is_nan lng || PrimFloat.is_nan lat then None else Some (lng, lat)
          | _ => None
          end) (features geojson).

Definition fmin (a b : float) : float := if PrimFloat.ltb b a then b else a.
Definition fmax (a b : float) : float := if PrimFloat.ltb a b then b else a.

(** The enclosing rectangle; [null] when there is no point, an exception
    when a coordinate is not a number. *)
Definition extent (geojson : FeatureCollection) : outcome value :=
  match coordinate_pairs geojson with
  | None => Throw (Raised (VStr "invalid coordinates"))
  | Some [] => Ok VNull
  | Some ((lng, lat) :: rest) =>
      let '(w, s, e, n) :=
        foldl (λ '(w, s, e, n) '(x, y), (fmin w x, fmin s y, fmax e x, fmax n y))
              (lng, lat, lng, lat) rest in
      Ok (VArr [VNum w; VNum s; VNum e; VNum n])
  end.

Definition parseFloat (v : value) : float :=
  match v with
  | VNum n => n
  | _ => PrimFloat.nan
  end.

#[export] Instance collaborators : Collaborators :=
  Build_Collaborators decode_gid Document_getGid getStringValue collectDetails
                      codec_decode iso3166_info extent parseFloat
                      map_to_list (λ o, reflexivity _).

(** The same collaborators on an engine that enumerates keys the other way
    round. *)
Definition collaborators_reversed : Collaborators :=
  Build_Collaborators decode_gid Document_getGid getStringValue collectDetails
                      codec_decode iso3166_info extent parseFloat
                      (λ o, reverse (map_to_list o))
                      (λ o, reverse_Permutation (map_to_list o)).

Definition center (lat lon : float) : value :=
  VObj {[ "lat" := VNum lat; "lon" := VNum lon ]}.

Definition paris : value :=
  VObj {[ "_id" := VStr "whosonfirst:locality:101751119";
          "source" := VStr "whosonfirst";
          "layer" := VStr "locality";
          "center_point" := center 48.875 2.375;
          "name" := VObj {[ "default" := VStr "Paris" ]};
          "country_a" := VStr "FRA";
          "bounding_box" := VObj {[ "min_lon" := VNum 2.25; "min_lat" := VNum 48.75;
                                    "max_lon" := VNum 2.5; "max_lat" := VNum 49 ]} ]}.

(** One namespace that decodes and one that does not. *)
Definition cafe_addendum : object :=
  {[ "osm" := VStr "{wheelchair:yes}"; "geonames" := VStr "broken" ]}.

Definition cafe : value :=
  VObj {[ "_id" := VStr "openstreetmap:venue:node/42";
          "source" := VStr "openstreetmap";
          "layer" := VStr "venue";
          "center_point" := center 40.75 (-74);
          "name" := VObj {[ "default" := VArr [VStr "Cafe"; VStr "Coffee"] ]};
          "country_a" := VStr "USA";
          "addendum" := VObj cafe_addendum;
          "debug" := VBool false ]}.

(** A document whose own [source] and [layer] differ from those in its
    [_id]. *)
Definition mislabelled : value :=
  VObj {[ "_id" := VStr "openstreetmap:venue:node/42";
          "source" := VStr "whosonfirst";
          "layer" := VStr "locality";
          "center_point" := center 40.75 (-74);
          "name" := VObj {[ "default" := VStr "Cafe" ]} ]}.

(** A document whose latitude is not a number. *)
Definition unparsable : value :=
  VObj {[ "_id" := VStr "openaddresses:address:9";
          "source" := VStr "openaddresses";
          "layer" := VStr "address";
          "center_point" := VObj {[ "lat" := VStr "north"; "lon" := VNum 1 ]};
          "name" := VObj {[ "default" := VStr "9 Main Street" ]} ]}.

Definition no_center : value :=
  VObj {[ "_id" := VStr "openaddresses:address:7"; "source" := VStr "openaddresses";
          "layer" := VStr "address" ]}.

(** A document whose [center_point] property is there and holds [null]. *)
Definition null_center : value :=
  VObj {[ "_id" := VStr "openaddresses:address:8"; "source" := VStr "openaddresses";
          "layer" := VStr "address"; "center_point" := VNull;
          "name" := VObj {[ "default" := VStr "8 Main Street" ]} ]}.

(** A document with a key spelled [name.default] and no [name]. *)
Definition dotted_name : value :=
  VObj {[ "_id" := VStr "openaddresses:address:6"; "source" := VStr "openaddresses";
          "layer" := VStr "address"; "center_point" := center 40.75 (-74);
          "name.default" := VStr "6 Main Street" ]}.



(** Three namespaces, two of which do not decode. *)
Definition mixed_addendum : object :=
  {[ "osm" := VStr "{wheelchair:yes}"; "geonames" := VStr "broken";
     "wof" := VStr "also broken" ]}.

Definition mixed_place : value :=
  VObj {[ "_id" := VStr "openstreetmap:venue:node/44";
          "source" := VStr "openstreetmap";
          "layer" := VStr "venue";
          "center_point" := center 40.75 (-74);
          "name" := VObj {[ "default" := VStr "Bistro" ]};
          "addendum" := VObj mixed_addendum ]}.

Definition sample_docs : list value := [paris; no_center; cafe; VNull].

End Fixture.

(** * Properties *)

(** Case analysis on every test of an [if] in the goal. *)
Ltac case_tests :=
  repeat match goal with
         | |- context [if ?test then _ else _] => destruct test
         end.

Section properties.
Context `{!Collaborators}.

(** ** The monad of diagnostics and exceptions *)

Lemma M_bind_ret {A B} (a : A) (k : A → M B) : mret a ≫= k = k a.
Proof. unfold mbind, M_bind, mret, M_ret. by destruct (k a). Qed.

Lemma M_bind_Ok_l {A B} logs (a : A) (k : A → M B) :
  (logs, Ok a) ≫= k = (logs ++ (k a).1, (k a).2).
Proof. reflexivity. Qed.

Lemma M_bind_log {A} (d : diagnostic) (m : M A) : (log d;; m) = (d :: m.1, m.2).
Proof. reflexivity. Qed.

Lemma M_bind_Ok {A B} (m : M A) (k : A → M B) logs b :
  m ≫= k = (logs, Ok b) ↔
  ∃ l1 a l2, m = (l1, Ok a) ∧ k a = (l2, Ok b) ∧ logs = l1 ++ l2.
Proof.
  unfold mbind, M_bind. destruct m as [l1 [a|e]]; split.
  - destruct (k a) as [l2 r] eqn:Hk. simpl. intros [= <- ->]. by exists l1, a, l2.
  - intros (l1' & a' & l2 & [= <- <-] & Hk & ->). by rewrite Hk.
  - intros [=].
  - intros (? & ? & ? & [=] & _).
Qed.

Lemma M_bind_Throw {A B} logs e (k : A → M B) : (logs, Throw e) ≫= k = (logs, Throw e).
Proof. reflexivity. Qed.

Lemma mapM_M_cons {A B} (f : A → M B) x l :
  mapM f (x :: l)
  = match f x with
    | (logs, Ok y) =>
        match mapM f l with
        | (logs', Ok ys) => (logs ++ logs', Ok (y :: ys))
        | (logs', Throw e) => (logs ++ logs', Throw e)
        end
    | (logs, Throw e) => (logs, Throw e)
    end.
Proof.
  cbn [mapM]. destruct (f x) as [logs [y|e]]; [|done].
  rewrite M_bind_Ok_l. destruct (mapM f l) as [logs' [ys|e]]; [|done].
  cbn. by rewrite app_nil_r.
Qed.

Lemma member_get v key : nullish v = false → member v key = mret (get v key).
Proof. unfold member. by intros ->. Qed.

Lemma member_throws v key : nullish v = true → member v key = throw TypeError.
Proof. unfold member. by intros ->. Qed.

Lemma get_not_nullish v key : nullish (get v key) = false → nullish v = false.
Proof. by destruct v. Qed.

(** ** Keys *)



Lemma lookup_assign (o : object) key v key' :
  assign o key v !! key'
  = if decide (key = key' ∧ key ≠ "__proto__") then Some v else o !! key'.
Proof.
  unfold assign. case_bool_decide as Hproto; case_decide as Hkey.
  - by destruct Hkey.
  - done.
  - destruct Hkey as [-> _]. apply lookup_insert_eq.
  - apply lookup_insert_ne. naive_solver.
Qed.

Lemma lookup_Object_assign (target source : object) key :
  key ≠ "__proto__" →
  Object_assign target source !! key
  = match source !! key with
    | Some v => Some v
    | None => target !! key
    end.
Proof.
  intros Hkey. unfold Object_assign.
  rewrite lookup_union, lookup_delete_ne by done.
  by destruct (source !! key), (target !! key).
Qed.

(** ** geojsonifyPlace *)

Lemma decode_namespace_eval gid acc entry :
  decode_namespace gid acc entry
  = (match decode_ok entry.2 with
     | Some _ => []
     | None => [warn_addendum gid entry.1]
     end,
     Ok (match decode_ok entry.2 with
         | Some decoded => assign acc entry.1 decoded
         | None => acc
         end)).
Proof. unfold decode_namespace, decode_ok. by destruct (codec_decode entry.2). Qed.

Lemma foldM_decode gid es acc :
  foldM (decode_namespace gid) acc es
  = (decode_warnings gid es, Ok (decoded_entries es acc)).
Proof.
  revert acc. induction es as [|entry es IH]; intros acc; [done|].
  cbn [foldM]. rewrite decode_namespace_eval.
  unfold mbind, M_bind. rewrite IH.
  unfold decode_warnings, decoded_entries. cbn [foldl omap list_omap fst snd].
  by destruct (decode_ok entry.2).
Qed.

Lemma transformable_center_point place :
  transformable place = true → nullish (get place "center_point") = false.
Proof. unfold transformable. by destruct (nullish _). Qed.

Lemma transformable_name place :
  transformable place = true →
  has place ["name"; "default"] = true →
  nullish (get place "name") = false.
Proof.
  unfold transformable. intros Hplace Hhas. rewrite Hhas in Hplace.
  by destruct (nullish (get place "center_point")), (nullish (get place "name")).
Qed.

(** When neither read raises, [geojsonifyPlace] returns, and what it
    returns and logs is given by the stage readings. *)
Lemma geojsonifyPlace_eval params place :
  transformable place = true →
  geojsonifyPlace params place
  = (place_warnings params place, Ok (transformed params place)).
Proof.
  intros Hplace. pose proof (transformable_center_point _ Hplace) as Hcenter.
  pose proof (transformable_name _ Hplace) as Hname.
  pose proof (get_not_nullish _ _ Hcenter) as Hobject.
  unfold geojsonifyPlace, place_warnings.
  rewrite !(member_get place) by done.
  repeat first [rewrite M_bind_ret | rewrite member_get by done].
  fold (base_doc place).
  unfold transformed, with_addendum, addendum_warnings, merged_doc, named_doc,
    name_warnings.
  destruct (has place ["name"; "default"]).
  - rewrite (member_get (get place "name")) by auto.
    destruct (has place ["addendum"]);
      unfold log, mret, M_ret;
      repeat first [rewrite M_bind_Ok_l | rewrite foldM_decode
                   | progress cbn [fst snd app]];
      by rewrite ?app_nil_r.
  - destruct (has place ["addendum"]);
      unfold log, mret, M_ret;
      repeat first [rewrite M_bind_Ok_l | rewrite foldM_decode
                   | progress cbn [fst snd app]];
      by rewrite ?app_nil_r.
Qed.

Lemma geojsonifyPlace_throws params place :
  transformable place = false →
  geojsonifyPlace params place = ([], Throw TypeError).
Proof.
  intros Hplace. unfold geojsonifyPlace.
  destruct (nullish place) eqn:Hobject.
  { by rewrite (member_throws place "_id"). }
  rewrite !(member_get place) by done.
  destruct (nullish (get place "center_point")) eqn:Hcenter.
  { repeat rewrite M_bind_ret. by rewrite member_throws. }
  repeat first [rewrite M_bind_ret | rewrite member_get by done].
  unfold transformable in Hplace. rewrite Hcenter in Hplace.
  destruct (has place ["name"; "default"]); [|done].
  destruct (nullish (get place "name")) eqn:Hname; [|done].
  rewrite (member_throws (get place "name")) by done.
  unfold throw. by rewrite M_bind_Throw.
Qed.

Lemma geojsonifyPlace_Ok params place logs record :
  geojsonifyPlace params place = (logs, Ok record) ↔
  transformable place = true ∧
  logs = place_warnings params place ∧ record = transformed params place.
Proof.
  split.
  - destruct (transformable place) eqn:Hplace.
    + rewrite geojsonifyPlace_eval by done. by intros [= <- <-].
    + by rewrite geojsonifyPlace_throws.
  - intros (Hplace & -> & ->). by apply geojsonifyPlace_eval.
Qed.

(** ** The stages of geojsonifyPlaces *)

Lemma filterM_center_point docs :
  filterM (λ doc,
     if negb (has doc ["center_point"])
     then log warn_no_center_point;; mret false
     else mret true) docs
  = (replicate (length (filter (λ doc, has doc ["center_point"] = false) docs))
               warn_no_center_point,
     Ok (filter (λ doc, has doc ["center_point"] = true) docs)).
Proof.
  induction docs as [|doc docs IH]; [done|].
  cbn [filterM]. rewrite IH, !filter_cons. clear IH.
  destruct (has doc ["center_point"]); cbn [negb].
  - rewrite M_bind_ret, M_bind_Ok_l. cbn. by rewrite app_nil_r.
  - rewrite M_bind_log. cbn [fst snd mret M_ret].
    rewrite !M_bind_Ok_l. cbn. by rewrite app_nil_r.
Qed.

Lemma mapM_geojsonifyPlace params places :
  Forall (λ place, transformable place = true) places →
  mapM (geojsonifyPlace params) places
  = (places ≫= place_warnings params, Ok (transformed params <$> places)).
Proof.
  induction 1 as [|place places Hplace _ IH]; [done|].
  by rewrite mapM_M_cons, geojsonifyPlace_eval, IH.
Qed.

Lemma mapM_geojsonifyPlace_Ok params places logs records :
  mapM (geojsonifyPlace params) places = (logs, Ok records) →
  Forall (λ place, transformable place = true) places.
Proof.
  revert logs records. induction places as [|place places IH]; intros logs records.
  - constructor.
  - rewrite mapM_M_cons.
    destruct (geojsonifyPlace params place) as [l [record|e]] eqn:Hplace; [|done].
    apply geojsonifyPlace_Ok in Hplace as (Hplace & _).
    destruct (mapM (geojsonifyPlace params) places) as [l' [rest|e]]; [|done].
    intros _. constructor; eauto.
Qed.

Lemma mapM_geojsonifyPlace_Throw params places logs e :
  mapM (geojsonifyPlace params) places = (logs, Throw e) → e = TypeError.
Proof.
  revert logs. induction places as [|place places IH]; intros logs; [done|].
  rewrite mapM_M_cons. destruct (transformable place) eqn:Hplace.
  - rewrite geojsonifyPlace_eval by done.
    destruct (mapM (geojsonifyPlace params) places) as [logs' [records|e']] eqn:Hrest.
    + done.
    + intros [= _ <-]. by eapply IH.
  - rewrite geojsonifyPlace_throws by done. by intros [= _ <-].
Qed.

Lemma mapM_geojsonifyPlace_raises params places :
  Exists (λ place, transformable place = false) places →
  ∃ logs, mapM (geojsonifyPlace params) places = (logs, Throw TypeError).
Proof.
  induction 1 as [place places Hplace|place places _ [logs IH]];
    rewrite mapM_M_cons.
  - rewrite geojsonifyPlace_throws by done. eauto.
  - destruct (transformable place) eqn:Hplace.
    + rewrite geojsonifyPlace_eval, IH by done. eauto.
    + rewrite geojsonifyPlace_throws by done. eauto.
Qed.

Lemma computeBBox_eval geojson geojsonExtentPoints :
  computeBBox geojson geojsonExtentPoints
  = (bbox_errors geojsonExtentPoints,
     Ok (match computed_bbox geojsonExtentPoints with
         | Some bbox => {| features := features geojson; collection_bbox := Some bbox |}
         | None => geojson
         end)).
Proof.
  unfold computeBBox, bbox_errors, computed_bbox.
  destruct (extent geojsonExtentPoints) as [bbox|e]; [|done].
  by destruct (truthy bbox).
Qed.

(** The whole pipeline, from the records the first stage produced. *)
Lemma geojsonifyPlaces_from_geodata params docs logs records :
  geodata params docs = (logs, Ok records) →
  geojsonifyPlaces params docs
  = (logs ++ bbox_errors (GeoJSON_parse (extractExtentPoints records)),
     Ok {| features := finish <$> records;
           collection_bbox :=
             computed_bbox (GeoJSON_parse (extractExtentPoints records)) |}).
Proof.
  intros Hgeodata. unfold geojsonifyPlaces.
  rewrite Hgeodata, M_bind_Ok_l, computeBBox_eval. cbn [fst snd].
  do 2 f_equal.
  unfold addISO3166PropsPerFeature, addBBoxPerFeature, GeoJSON_parse, finish.
  cbn [features collection_bbox]. rewrite <- !list_fmap_compose.
  by destruct (computed_bbox _).
Qed.

Lemma geojsonifyPlaces_Ok params docs logs geojson :
  geojsonifyPlaces params docs = (logs, Ok geojson) →
  ∃ logs' records, geodata params docs = (logs', Ok records).
Proof.
  unfold geojsonifyPlaces. rewrite M_bind_Ok.
  intros (l1 & records & l2 & Hgeodata & _). eauto.
Qed.

(** The run, read off the outcome of the mapping stage. *)
Lemma geojsonifyPlaces_unfold params docs :
  geojsonifyPlaces params docs
  = match mapM (geojsonifyPlace params)
               (filter (λ doc, has doc ["center_point"] = true) docs) with
    | (logs, Ok records) =>
        (replicate (length (filter (λ doc, has doc ["center_point"] = false) docs))
                   warn_no_center_point
           ++ logs ++ bbox_errors (GeoJSON_parse (extractExtentPoints records)),
         Ok {| features := finish <$> records;
               collection_bbox :=
                 computed_bbox (GeoJSON_parse (extractExtentPoints records)) |})
    | (logs, Throw e) =>
        (replicate (length (filter (λ doc, has doc ["center_point"] = false) docs))
                   warn_no_center_point ++ logs,
         Throw e)
    end.
Proof.
  destruct (mapM _ _) as [logs [records|e]] eqn:Hmap.
  - rewrite (geojsonifyPlaces_from_geodata params docs
               (replicate (length (filter (λ doc, has doc ["center_point"] = false) docs))
                          warn_no_center_point ++ logs) records).
    + by rewrite <- app_assoc.
    + unfold geodata. by rewrite filterM_center_point, M_bind_Ok_l, Hmap.
  - unfold geojsonifyPlaces, geodata.
    by rewrite filterM_center_point, M_bind_Ok_l, Hmap.
Qed.

Lemma geodata_eval params docs :
  Forall (λ place, transformable place = true)
         (filter (λ doc, has doc ["center_point"] = true) docs) →
  geodata params docs
  = (replicate (length (filter (λ doc, has doc ["center_point"] = false) docs))
               warn_no_center_point
     ++ (filter (λ doc, has doc ["center_point"] = true) docs
           ≫= place_warnings params),
     Ok (transformed params <$> filter (λ doc, has doc ["center_point"] = true) docs)).
Proof.
  intros Hdocs. unfold geodata.
  rewrite filterM_center_point, M_bind_Ok_l.
  by rewrite mapM_geojsonifyPlace.
Qed.

Lemma geodata_Ok params docs logs records :
  geodata params docs = (logs, Ok records) →
  Forall (λ place, transformable place = true)
         (filter (λ doc, has doc ["center_point"] = true) docs).
Proof.
  unfold geodata. rewrite filterM_center_point, M_bind_Ok_l.
  destruct (mapM _ _) as [l [r|e]] eqn:Hmap; [|done].
  intros _. by eapply mapM_geojsonifyPlace_Ok.
Qed.

(** A run over documents whose reads all succeed. *)
Lemma geojsonifyPlaces_eval params docs :
  Forall (λ place, transformable place = true)
         (filter (λ doc, has doc ["center_point"] = true) docs) →
  geojsonifyPlaces params docs
  = (replicate (length (filter (λ doc, has doc ["center_point"] = false) docs))
               warn_no_center_point
       ++ (filter (λ doc, has doc ["center_point"] = true) docs
             ≫= place_warnings params)
       ++ bbox_errors
            (GeoJSON_parse
               (extractExtentPoints
                  (transformed params
                     <$> filter (λ doc, has doc ["center_point"] = true) docs))),
     Ok {| features :=
             finish <$> (transformed params
                           <$> filter (λ doc, has doc ["center_point"] = true) docs);
           collection_bbox :=
             computed_bbox
               (GeoJSON_parse
                  (extractExtentPoints
                     (transformed params
                        <$> filter (λ doc, has doc ["center_point"] = true) docs))) |}).
Proof.
  intros Hdocs.
  rewrite (geojsonifyPlaces_from_geodata _ _ _ _ (geodata_eval _ _ Hdocs)).
  by rewrite <- app_assoc.
Qed.

(** A run that returns is a run over documents whose reads all succeed. *)
Lemma geojsonifyPlaces_returns params docs logs geojson :
  geojsonifyPlaces params docs = (logs, Ok geojson) →
  Forall (λ place, transformable place = true)
         (filter (λ doc, has doc ["center_point"] = true) docs).
Proof.
  intros Hrun.
  destruct (geojsonifyPlaces_Ok _ _ _ _ Hrun) as (logs' & records & Hgeodata).
  by eapply geodata_Ok.
Qed.

(** ** Features, one by one *)

Lemma addBBox_properties feature :
  properties (addBBox feature) = delete "bounding_box" (properties feature).
Proof. unfold addBBox. by destruct (truthy _). Qed.

Lemma addBBox_bbox feature box :
  properties feature !! "bounding_box" = Some box →
  truthy box = true →
  bbox (addBBox feature)
  = Some (VArr [get box "min_lon"; get box "min_lat";
                get box "max_lon"; get box "max_lat"]).
Proof.
  intros Hbox Htruthy. unfold addBBox.
  assert (get (VObj (properties feature)) "bounding_box" = box) as ->
    by (unfold get; by rewrite Hbox).
  by rewrite Htruthy.
Qed.

Lemma addISO3166Props_cases feature :
  addISO3166Props feature = feature ∨
  ∃ alpha2, addISO3166Props feature
            = set_properties feature (<["country_code" := alpha2]> (properties feature)).
Proof.
  unfold addISO3166Props. case_tests; eauto.
Qed.

Lemma addISO3166Props_geometry feature :
  geometry (addISO3166Props feature) = geometry feature.
Proof. by destruct (addISO3166Props_cases feature) as [->|[? ->]]. Qed.

Lemma addISO3166Props_bbox feature :
  bbox (addISO3166Props feature) = bbox feature.
Proof. by destruct (addISO3166Props_cases feature) as [->|[? ->]]. Qed.

Lemma addISO3166Props_other_properties feature key :
  key ≠ "country_code" →
  properties (addISO3166Props feature) !! key = properties feature !! key.
Proof.
  intros Hkey. destruct (addISO3166Props_cases feature) as [->|[? ->]]; [done|].
  cbn [properties set_properties]. by rewrite lookup_insert_ne.
Qed.

Lemma finish_in_order params places :
  Forall (λ place, transformable place = true) places →
  Forall2 (λ place feature,
             ∃ logs record,
               geojsonifyPlace params place = (logs, Ok record) ∧
               feature = finish record)
          places (finish <$> (transformed params <$> places)).
Proof.
  intros Hplaces. rewrite <- list_fmap_compose. apply Forall2_fmap_r.
  apply Forall_Forall2_diag. eapply Forall_impl; [done|].
  intros place Hplace. eexists _, _. split; [by apply geojsonifyPlace_eval|done].
Qed.

Lemma length_survivors docs :
  length (filter (λ doc, has doc ["center_point"] = true) docs)
  = length docs - length (filter (λ doc, has doc ["center_point"] = false) docs).
Proof.
  induction docs as [|doc docs IH]; [done|].
  rewrite !filter_cons.
  pose proof (length_filter (λ doc, has doc ["center_point"] = false) docs).
  destruct (has doc ["center_point"]); repeat case_decide; try done;
    cbn [length]; lia.
Qed.

Lemma decode_warnings_kind gid es d :
  d ∈ decode_warnings gid es → ∃ ns, d = warn_addendum gid ns.
Proof.
  unfold decode_warnings. intros (entry & _ & Hentry)%list_elem_of_omap.
  destruct (decode_ok entry.2); naive_solver.
Qed.

Lemma place_warnings_kind params place d :
  d ∈ place_warnings params place → d ≠ warn_no_center_point.
Proof.
  unfold place_warnings, name_warnings, addendum_warnings.
  rewrite elem_of_app. intros [Hname|Haddendum].
  - destruct (has place ["name"; "default"]).
    + by apply elem_of_nil in Hname.
    + by apply list_elem_of_singleton in Hname as ->.
  - destruct (has place ["addendum"]).
    + by apply decode_warnings_kind in Haddendum as [ns ->].
    + by apply elem_of_nil in Haddendum.
Qed.

Lemma bbox_errors_kind pts d : d ∈ bbox_errors pts → d ≠ warn_no_center_point.
Proof.
  unfold bbox_errors. destruct (extent pts).
  - by intros ?%elem_of_nil.
  - rewrite !elem_of_cons. intros [->|[->|?%elem_of_nil]]; done.
Qed.

Lemma mapM_geojsonifyPlace_logs params places d :
  d ∈ (mapM (geojsonifyPlace params) places).1 → d ≠ warn_no_center_point.
Proof.
  induction places as [|place places IH]; [by intros ?%elem_of_nil|].
  rewrite mapM_M_cons. destruct (transformable place) eqn:Hplace.
  - rewrite geojsonifyPlace_eval by done.
    destruct (mapM (geojsonifyPlace params) places) as [logs [records|e]];
      cbn [fst] in *; rewrite elem_of_app;
      (intros [Hd|Hd]; [by eapply place_warnings_kind|by apply IH]).
  - rewrite geojsonifyPlace_throws by done. by intros ?%elem_of_nil.
Qed.

(** ** C1: documents without a center point *)

(** C1.  A document without an own [center_point] property (a document
    that is [null] or not an object included) is dropped for good with
    one [warn_no_center_point]: whatever the outcome, the log opens with
    one such warning per dropped document and holds no other.  When the
    run returns, the features of the collection are, in order, the
    transforms of exactly the documents that have the property, and there
    are as many features as documents minus the dropped ones.  The run
    does return when every kept document can be transformed.  But a
    document whose [center_point] is present and holds [undefined] or
    [null] is not dropped: it makes the whole run raise a TypeError. *)
Theorem geojsonifyPlaces_drops_without_center_point params docs :
  (∃ rest,
     (geojsonifyPlaces params docs).1
     = replicate (length (filter (λ doc, has doc ["center_point"] = false) docs))
                 warn_no_center_point ++ rest ∧
     warn_no_center_point ∉ rest) ∧
  (∀ logs geojson,
     geojsonifyPlaces params docs = (logs, Ok geojson) →
     Forall2 (λ doc feature,
                ∃ l record,
                  geojsonifyPlace params doc = (l, Ok record) ∧
                  feature = finish record)
             (filter (λ doc, has doc ["center_point"] = true) docs)
             (features geojson) ∧
     length (features geojson)
     = length docs - length (filter (λ doc, has doc ["center_point"] = false) docs)) ∧
  (Forall (λ doc, transformable doc = true)
          (filter (λ doc, has doc ["center_point"] = true) docs) →
   ∃ logs geojson, geojsonifyPlaces params docs = (logs, Ok geojson)) ∧
  (∀ doc,
     doc ∈ docs →
     has doc ["center_point"] = true →
     nullish (get doc "center_point") = true →
     ∃ logs, geojsonifyPlaces params docs = (logs, Throw TypeError)).
Proof.
  split; [|split; [|split]].
  - rewrite geojsonifyPlaces_unfold.
    pose proof (mapM_geojsonifyPlace_logs params
                  (filter (λ doc, has doc ["center_point"] = true) docs)) as Hkind.
    destruct (mapM _ _) as [logs [records|e]]; cbn [fst] in *.
    + eexists. split; [done|]. rewrite elem_of_app. intros [Hin|Hin].
      * by eapply Hkind.
      * by eapply bbox_errors_kind.
    + eexists. split; [done|]. intros Hin. by eapply Hkind.
  - intros logs geojson Hrun.
    pose proof (geojsonifyPlaces_returns _ _ _ _ Hrun) as Hdocs.
    rewrite geojsonifyPlaces_eval in Hrun by done. injection Hrun as <- <-.
    cbn [features]. split; [by apply finish_in_order|].
    by rewrite !length_fmap, length_survivors.
  - intros Hdocs. eexists _, _. by apply geojsonifyPlaces_eval.
  - intros doc Hin Hhas Hcenter. rewrite geojsonifyPlaces_unfold.
    destruct (mapM_geojsonifyPlace_raises params
                (filter (λ doc, has doc ["center_point"] = true) docs))
      as [logs ->]; [|eauto].
    apply Exists_exists. exists doc. split.
    + by apply list_elem_of_filter.
    + unfold transformable. by rewrite Hcenter.
Qed.

(** ** C2: per-feature bbox *)

(** C2.  Take any run whose first stage produced [records], and compare
    each feature as [GeoJSON.parse] built it from them with the same
    feature in the returned collection.  If its properties carried a
    bounding_box (a value the code takes as present: any object, so any
    box of four edges), the returned feature has
    [bbox = [min_lon, min_lat, max_lon, max_lat]] read from that box; and
    whether or not it carried one, the returned properties have no
    [bounding_box] key. *)
Theorem geojsonifyPlaces_bbox_per_feature params docs logs records :
  geodata params docs = (logs, Ok records) →
  ∃ logs' geojson,
    geojsonifyPlaces params docs = (logs', Ok geojson) ∧
    Forall2 (λ before after,
               (∀ box,
                  properties before !! "bounding_box" = Some box →
                  truthy box = true →
                  bbox after
                  = Some (VArr [get box "min_lon"; get box "min_lat";
                                get box "max_lon"; get box "max_lat"])) ∧
               properties after !! "bounding_box" = None)
            (features (GeoJSON_parse records)) (features geojson).
Proof.
  intros Hgeodata.
  pose proof (geojsonifyPlaces_from_geodata _ _ _ _ Hgeodata) as Hrun.
  eexists _, _. split; [exact Hrun|].
  cbn [features GeoJSON_parse].
  apply Forall2_fmap, Forall_Forall2_diag, Forall_forall.
  intros record _. unfold finish. split.
  - intros box Hbox Htruthy. rewrite addISO3166Props_bbox.
    by apply addBBox_bbox.
  - rewrite addISO3166Props_other_properties by done.
    rewrite addBBox_properties. apply lookup_delete_eq.
Qed.

(** ** C4 and C10: country codes *)



(** C10.  The country-code step keeps the collection's own [bbox] and,
    feature by feature, the geometry, the feature's [bbox] and every
    property other than [country_code]. *)
Theorem addISO3166PropsPerFeature_frame geojson :
  collection_bbox (addISO3166PropsPerFeature geojson) = collection_bbox geojson ∧
  Forall2 (λ before after,
             geometry after = geometry before ∧
             bbox after = bbox before ∧
             delete "country_code" (properties after)
             = delete "country_code" (properties before))
          (features geojson) (features (addISO3166PropsPerFeature geojson)).
Proof.
  split; [done|]. cbn [features addISO3166PropsPerFeature].
  apply Forall2_fmap_r, Forall_Forall2_diag, Forall_forall.
  intros feature _. cbn [compose].
  split; [apply addISO3166Props_geometry|].
  split; [apply addISO3166Props_bbox|].
  apply map_eq. intros key. destruct (decide (key = "country_code")) as [->|Hkey].
  - by rewrite !lookup_delete_eq.
  - rewrite !lookup_delete_ne by done.
    by apply addISO3166Props_other_properties.
Qed.

(** ** C6: extent points *)

(** The point the code builds is the ExtentPoint of the specification. *)
Lemma point_spec lng lat : point lng lat = spec_ExtentPoint lng lat.
Proof.
  unfold point, spec_ExtentPoint. rewrite <- insert_empty.
  by apply insert_insert_ne.
Qed.

Lemma extent_points_step record :
  (let bounding_box := get (VObj record) "bounding_box" in
   if truthy bounding_box
   then [point (get bounding_box "min_lon") (get bounding_box "min_lat");
         point (get bounding_box "max_lon") (get bounding_box "max_lat")]
   else [point (get (VObj record) "lng") (get (VObj record) "lat")])
  = spec_extent_points record.
Proof.
  unfold spec_extent_points. cbn [get]. rewrite !point_spec.
  by destruct (record !! "bounding_box").
Qed.

Lemma length_spec_extent_points record :
  (1 ≤ length (spec_extent_points record) ≤ 2)%nat.
Proof.
  unfold spec_extent_points.
  destruct (record !! "bounding_box") as [box|]; [destruct (truthy box)|]; cbn; lia.
Qed.

(** C6.  The extent points are the concatenation, in the order of the
    records, of what each record contributes: the two corners
    [(min_lon, min_lat)] and [(max_lon, max_lat)] of its bounding_box when
    it carries one, its single [(lng, lat)] point otherwise.  Hence N
    records give between N and 2N points. *)
Theorem extractExtentPoints_per_record geodata :
  extractExtentPoints geodata = geodata ≫= spec_extent_points ∧
  (length geodata ≤ length (extractExtentPoints geodata) ≤ 2 * length geodata)%nat.
Proof.
  assert (∀ acc, foldl (λ extentPoints place,
             let bounding_box := get (VObj place) "bounding_box" in
             if truthy bounding_box
             then (extentPoints
                     ++ [point (get bounding_box "min_lon") (get bounding_box "min_lat")])
                     ++ [point (get bounding_box "max_lon") (get bounding_box "max_lat")]
             else extentPoints
                    ++ [point (get (VObj place) "lng") (get (VObj place) "lat")])
            acc geodata
          = acc ++ (geodata ≫= spec_extent_points)) as Hfold.
  { induction geodata as [|record geodata IH]; intros acc.
    - cbn. by rewrite app_nil_r.
    - cbn [foldl]. rewrite IH, bind_cons, <- extent_points_step, app_assoc.
      f_equal. cbv zeta. destruct (truthy _); [|done]. by rewrite <- app_assoc. }
  unfold extractExtentPoints. rewrite Hfold. cbn [app]. split; [done|].
  clear Hfold.
  induction geodata as [|record geodata IH]; [cbn; lia|].
  rewrite bind_cons, length_app. cbn [length].
  pose proof (length_spec_extent_points record). lia.
Qed.

(** ** C5: the collection bbox *)

(** C5.  Take any run whose first stage produced [records].  If [extent]
    raises on the extent points, [geojsonifyPlaces] still returns: it logs
    the error and then the point set, and the collection has no [bbox].
    If [extent] answers a falsy value instead (the way an empty point set
    is reported without an exception), the collection has no [bbox]
    either and nothing is logged.  In both cases the features are those
    of the records. *)
Theorem geojsonifyPlaces_bbox_failure params docs logs records :
  geodata params docs = (logs, Ok records) →
  let geojsonExtentPoints := GeoJSON_parse (extractExtentPoints records) in
  (∀ e, extent geojsonExtentPoints = Throw e →
     geojsonifyPlaces params docs
     = (logs ++ [error_bbox e; error_geojson geojsonExtentPoints],
        Ok {| features := finish <$> records; collection_bbox := None |})) ∧
  (∀ bbox, extent geojsonExtentPoints = Ok bbox → truthy bbox = false →
     geojsonifyPlaces params docs
     = (logs, Ok {| features := finish <$> records; collection_bbox := None |})).
Proof.
  intros Hgeodata pts.
  rewrite (geojsonifyPlaces_from_geodata _ _ _ _ Hgeodata).
  fold pts. unfold bbox_errors, computed_bbox. split.
  - by intros e ->.
  - intros bbox -> ->. by rewrite app_nil_r.
Qed.

(** ** C3, C7 and C8: the record of one place *)

Lemma lookup_decoded_entries es acc key :
  NoDup es.*1 →
  decoded_entries es acc !! key
  = match (list_to_map es : object) !! key with
    | Some blob =>
        match decode_ok blob with
        | Some decoded => if decide (key = "__proto__") then acc !! key else Some decoded
        | None => acc !! key
        end
    | None => acc !! key
    end.
Proof.
  revert acc. induction es as [|[ns blob] es IH]; intros acc Hnodup; [done|].
  apply NoDup_cons in Hnodup as [Hfresh Hnodup].
  unfold decoded_entries in *. cbn [foldl fst snd]. rewrite IH by done.
  rewrite list_to_map_cons. destruct (decide (key = ns)) as [->|Hkey].
  - rewrite lookup_insert_eq, not_elem_of_list_to_map_1 by done.
    destruct (decode_ok blob); [|done]. rewrite lookup_assign.
    repeat case_decide; intuition congruence.
  - rewrite lookup_insert_ne by done.
    destruct (decode_ok blob); rewrite ?lookup_assign;
      repeat case_decide; intuition congruence.
Qed.

(** Whatever the order in which the namespaces are visited, the decoded
    addendum is the map of the blobs that decode, [__proto__] apart. *)
Lemma decoded_entries_for_in (namespaces : object) :
  decoded_entries (for_in namespaces) ∅
  = delete "__proto__" (omap decode_ok namespaces).
Proof.
  pose proof (for_in_entries namespaces) as Hvisited.
  assert (NoDup (for_in namespaces).*1) as Hnodup.
  { rewrite Hvisited. apply NoDup_fst_map_to_list. }
  apply map_eq. intros key. rewrite lookup_decoded_entries by done.
  rewrite (list_to_map_proper _ _ Hnodup Hvisited), list_to_map_to_list.
  rewrite lookup_empty. destruct (decide (key = "__proto__")) as [->|Hkey].
  - rewrite lookup_delete_eq.
    destruct (namespaces !! "__proto__") as [blob|]; [|done].
    by destruct (decode_ok blob).
  - rewrite lookup_delete_ne, lookup_omap by done.
    destruct (namespaces !! key) as [blob|]; [|done]. cbn.
    by destruct (decode_ok blob).
Qed.


Lemma not_reserved key :
  key = "addendum" ∨ key = "debug" → key ∉ reserved_keys.
Proof.
  unfold reserved_keys. rewrite !not_elem_of_cons.
  intros [->| ->]; repeat split; try done; apply not_elem_of_nil.
Qed.

Lemma base_doc_keys place key :
  key ∉ reserved_keys → key ≠ "country_code" → base_doc place !! key = None.
Proof.
  unfold reserved_keys, base_doc. rewrite !not_elem_of_cons.
  intros (?&?&?&?&?&?&?&?&_) ?.
  by rewrite !lookup_insert_ne, lookup_singleton_ne.
Qed.

Lemma named_doc_lookup place key :
  key ≠ "name" → named_doc place !! key = base_doc place !! key.
Proof.
  intros Hkey. unfold named_doc. destruct (has place _); [|done].
  by rewrite lookup_insert_ne.
Qed.

Lemma merged_doc_lookup params place key :
  key ≠ "__proto__" →
  merged_doc params place !! key
  = match collectDetails params place !! key with
    | Some v => Some v
    | None => named_doc place !! key
    end.
Proof. apply lookup_Object_assign. Qed.

Lemma transformed_lookup params place key :
  key ≠ "addendum" → key ≠ "debug" →
  transformed params place !! key = merged_doc params place !! key.
Proof.
  intros Haddendum Hdebug. unfold transformed, with_addendum.
  case_tests; by rewrite ?lookup_insert_ne.
Qed.

Lemma transformed_reserved params place key :
  key ∈ reserved_keys →
  collectDetails params place !! key = None →
  transformed params place !! key = base_doc place !! key.
Proof.
  unfold reserved_keys. intros Hkey Hdetails.
  assert (key ≠ "addendum" ∧ key ≠ "debug" ∧ key ≠ "name" ∧ key ≠ "__proto__")
    as (?&?&?&?).
  { rewrite !elem_of_cons, elem_of_nil in Hkey.
    repeat split; intros ->; intuition discriminate. }
  rewrite transformed_lookup, merged_doc_lookup, Hdetails by done.
  by apply named_doc_lookup.
Qed.


(** C7, as the code has it.  Of a transform that returns: the resolved
    identifier provides only the local id, so [id] and [source_id] are
    the [id] of the triple that [decode_gid] resolves from [_id];
    [layer] and [source] are copied from the document's own [layer] and
    [source] fields, and [gid] is built from those two and the resolved
    local id.  This holds provided the Detail Collector produces none of
    the five keys [id], [gid], [layer], [source], [source_id] (what it
    produces would replace them). *)
Theorem geojsonifyPlace_identifier_fields params place logs record :
  geojsonifyPlace params place = (logs, Ok record) →
  Forall (λ key, collectDetails params place !! key = None) identifier_keys →
  record !! "id" = Some (gid_id (decode_gid (get place "_id"))) ∧
  record !! "source_id" = Some (gid_id (decode_gid (get place "_id"))) ∧
  record !! "layer" = Some (get place "layer") ∧
  record !! "source" = Some (get place "source") ∧
  record !! "gid"
  = Some (Document_getGid (get place "source") (get place "layer")
                          (gid_id (decode_gid (get place "_id")))).
Proof.
  intros (_ & _ & ->)%geojsonifyPlace_Ok Hdetails.
  rewrite Forall_forall in Hdetails.
  assert (∀ key, key ∈ identifier_keys →
                 transformed params place !! key = base_doc place !! key) as Hkey.
  { intros key Hkey. apply transformed_reserved; [|by apply Hdetails].
    unfold identifier_keys in Hkey. unfold reserved_keys.
    rewrite !elem_of_cons in Hkey. rewrite !elem_of_cons. intuition. }
  rewrite !Hkey by (unfold identifier_keys; repeat constructor).
  unfold base_doc. by simplify_map_eq.
Qed.

(** C8, as the code has it.  Of a transform that returns: when the
    document's [debug] is truthy the record's [debug] is that very value.
    When it is absent or falsy ([undefined], [null], [false], [0], [NaN],
    the empty string) the transform assigns nothing: the record has a
    [debug] key only if the Detail Collector produced one. *)
Theorem geojsonifyPlace_debug params place logs record :
  geojsonifyPlace params place = (logs, Ok record) →
  record !! "debug"
  = (if truthy (get place "debug")
     then Some (get place "debug")
     else collectDetails params place !! "debug").
Proof.
  intros (_ & _ & ->)%geojsonifyPlace_Ok.
  unfold transformed. destruct (truthy (get place "debug")).
  - apply lookup_insert_eq.
  - assert (with_addendum params place !! "debug" = merged_doc params place !! "debug")
      as ->.
    { unfold with_addendum. case_tests; by rewrite ?lookup_insert_ne. }
    rewrite merged_doc_lookup, named_doc_lookup by done.
    rewrite base_doc_keys; [|apply not_reserved; auto|done].
    by destruct (collectDetails params place !! "debug").
Qed.

End properties.

(** ** C9: two runs on the same input *)

Section determinism.
Context (C1 C2 : Collaborators) (Hsame : same_answers C1 C2).

Lemma decode_ok_same blob : @decode_ok C1 blob = @decode_ok C2 blob.
Proof.
  destruct Hsame as (_&_&_&_&Hdecode&_). unfold decode_ok. by rewrite Hdecode.
Qed.

Lemma decoded_entries_same es acc :
  @decoded_entries C1 es acc = @decoded_entries C2 es acc.
Proof.
  revert acc. induction es as [|entry es IH]; intros acc; [done|].
  unfold decoded_entries in *. cbn [foldl]. by rewrite decode_ok_same, IH.
Qed.

Lemma decode_warnings_same gid es :
  @decode_warnings C1 gid es = @decode_warnings C2 gid es.
Proof.
  unfold decode_warnings. apply list_omap_ext, Forall_Forall2_diag, Forall_forall.
  intros entry _. by rewrite decode_ok_same.
Qed.

(** The two runs may visit the keys of an object in different orders. *)
Lemma entries_same v : @entries C1 v ≡ₚ @entries C2 v.
Proof.
  destruct v as [| | | | | |fields]; try done. cbn [entries].
  by rewrite !for_in_entries.
Qed.

Lemma decoded_addendum_same v :
  @decoded_entries C1 (@entries C1 v) ∅ = @decoded_entries C2 (@entries C2 v) ∅.
Proof.
  destruct v as [| | | | | |fields]; try apply decoded_entries_same.
  cbn [entries]. rewrite !decoded_entries_for_in. f_equal.
  apply map_eq. intros key. rewrite !lookup_omap.
  destruct (fields !! key) as [blob|]; [|done]. apply decode_ok_same.
Qed.

Lemma addendum_warnings_same gid v :
  @decode_warnings C1 gid (@entries C1 v) ≡ₚ @decode_warnings C2 gid (@entries C2 v).
Proof.
  rewrite decode_warnings_same. unfold decode_warnings.
  apply omap_Permutation, entries_same.
Qed.

Lemma base_doc_same place : @base_doc C1 place = @base_doc C2 place.
Proof.
  destruct Hsame as (Hgid&Hdoc&_&_&_&_&_&Hfloat). unfold base_doc.
  by rewrite Hgid, Hdoc, !Hfloat.
Qed.

Lemma merged_doc_same params place :
  @merged_doc C1 params place = @merged_doc C2 params place.
Proof.
  destruct Hsame as (_&_&Hname&Hdetails&_). unfold merged_doc, named_doc.
  by rewrite Hdetails, Hname, base_doc_same.
Qed.

Lemma transformed_same params place :
  @transformed C1 params place = @transformed C2 params place.
Proof.
  unfold transformed, with_addendum.
  by rewrite merged_doc_same, decoded_addendum_same.
Qed.

Lemma place_warnings_same params place :
  @place_warnings C1 params place ≡ₚ @place_warnings C2 params place.
Proof.
  unfold place_warnings, name_warnings, addendum_warnings.
  rewrite base_doc_same, merged_doc_same. apply Permutation_app; [done|].
  destruct (has place ["addendum"]); [apply addendum_warnings_same|done].
Qed.

Lemma mapM_geojsonifyPlace_same params places :
  (mapM (@geojsonifyPlace C1 params) places).2
  = (mapM (@geojsonifyPlace C2 params) places).2 ∧
  (mapM (@geojsonifyPlace C1 params) places).1
  ≡ₚ (mapM (@geojsonifyPlace C2 params) places).1.
Proof.
  induction places as [|place places [IHoutcome IHlogs]]; [done|].
  rewrite !mapM_M_cons. destruct (transformable place) eqn:Hplace.
  - rewrite !geojsonifyPlace_eval by done.
    pose proof (place_warnings_same params place) as Hwarnings.
    pose proof (transformed_same params place) as Hrecord.
    destruct (mapM (@geojsonifyPlace C1 params) places) as [logs1 [records1|e1]],
             (mapM (@geojsonifyPlace C2 params) places) as [logs2 [records2|e2]];
      cbn [fst snd] in *; try done.
    + split; [congruence|by apply Permutation_app].
    + split; [congruence|by apply Permutation_app].
  - by rewrite !geojsonifyPlace_throws.
Qed.

Lemma finish_same record : @finish C1 record = @finish C2 record.
Proof.
  destruct Hsame as (_&_&_&_&_&Hinfo&_). unfold finish, addISO3166Props.
  by rewrite Hinfo.
Qed.

Lemma run_same params docs :
  (@geojsonifyPlaces C1 params docs).2 = (@geojsonifyPlaces C2 params docs).2 ∧
  (@geojsonifyPlaces C1 params docs).1 ≡ₚ (@geojsonifyPlaces C2 params docs).1.
Proof.
  rewrite !geojsonifyPlaces_unfold.
  destruct (mapM_geojsonifyPlace_same params
              (filter (λ doc, has doc ["center_point"] = true) docs))
    as [Houtcome Hlogs].
  destruct (mapM (@geojsonifyPlace C1 params) _) as [logs1 [records1|e1]],
           (mapM (@geojsonifyPlace C2 params) _) as [logs2 [records2|e2]];
    cbn [fst snd] in *; try done.
  - injection Houtcome as <-.
    destruct Hsame as (_&_&_&_&_&_&Hextent&_).
    unfold bbox_errors, computed_bbox. rewrite Hextent. split.
    + do 2 f_equal. apply list_fmap_ext. intros _ record _. apply finish_same.
    + by rewrite Hlogs.
  - injection Houtcome as ->. split; [done|]. by rewrite Hlogs.
Qed.

End determinism.

(** C9.  Two runs on the same [(params, docs)], each with its own
    collaborators, where the collaborators of the two runs give the same
    answer to every question.  Nothing is assumed about the order in
    which the two runs enumerate the keys of an object: the [for..in] of
    one may visit the namespaces of an addendum in another order than
    the [for..in] of the other.  Still the runs end alike: either both
    return, and then the same collection (the same features in the same
    order, the same bbox), or both raise the same exception; and they
    log the same diagnostics, up to order.  When a run returns a
    collection, its features are, in order, the transforms of the
    documents that have a center point. *)
Theorem geojsonifyPlaces_deterministic (C1 C2 : Collaborators) params docs :
  same_answers C1 C2 →
  (@geojsonifyPlaces C1 params docs).2 = (@geojsonifyPlaces C2 params docs).2 ∧
  (@geojsonifyPlaces C1 params docs).1 ≡ₚ (@geojsonifyPlaces C2 params docs).1 ∧
  (∀ logs geojson,
     @geojsonifyPlaces C1 params docs = (logs, Ok geojson) →
     Forall2 (λ doc feature,
                ∃ l record,
                  @geojsonifyPlace C1 params doc = (l, Ok record) ∧
                  feature = @finish C1 record)
             (filter (λ doc, has doc ["center_point"] = true) docs)
             (features geojson)).
Proof.
  intros Hsame.
  destruct (run_same C1 C2 Hsame params docs) as [Houtcome Hlogs].
  split; [done|]. split; [done|].
  intros logs geojson Hrun.
  pose proof (geojsonifyPlaces_returns _ _ _ _ Hrun) as Hdocs.
  rewrite geojsonifyPlaces_eval in Hrun by done. injection Hrun as <- <-.
  cbn [features]. by apply finish_in_order.
Qed.

(** * Concrete runs *)

Example run_sample_country_codes :
  match @geojsonifyPlaces Fixture.collaborators VNull Fixture.sample_docs with
  | (_, Ok geojson) => (λ feature, properties feature !! "country_code") <$> features geojson
  | (_, Throw _) => []
  end
  = [Some (VStr "FR"); Some (VStr "US")].
Proof. vm_compute. reflexivity. Qed.

Example run_sample_log :
  (@geojsonifyPlaces Fixture.collaborators VNull Fixture.sample_docs).1
  = [warn_no_center_point; warn_no_center_point;
     warn_addendum (VStr "openstreetmap:venue:node/42") "geonames"].
Proof. vm_compute. reflexivity. Qed.

Example run_no_documents :
  @geojsonifyPlaces Fixture.collaborators VNull []
  = ([], Ok {| features := []; collection_bbox := None |}).
Proof. vm_compute. reflexivity. Qed.

(** A [center_point] that is present and [null] is not filtered out, and
    reading its [lat] raises. *)
Example run_null_center_point :
  @geojsonifyPlaces Fixture.collaborators VNull [VObj {[ "center_point" := VNull ]}]
  = ([], Throw TypeError).
Proof. vm_compute. reflexivity. Qed.

(** A document with an own key spelled [name.default] and no [name]
    passes [_.has(place, 'name.default')], and reading
    [place.name.default] raises. *)
Example run_dotted_name :
  has Fixture.dotted_name ["name"; "default"] = true ∧
  @geojsonifyPlace Fixture.collaborators VNull Fixture.dotted_name
  = ([], Throw TypeError).
Proof. split; vm_compute; reflexivity. Qed.

(** Two enumeration orders of the same addendum: the same record, the
    warnings in two orders. *)
Example run_mixed_place :
  (@geojsonifyPlace Fixture.collaborators VNull Fixture.mixed_place).2
  = (@geojsonifyPlace Fixture.collaborators_reversed VNull Fixture.mixed_place).2 ∧
  (@geojsonifyPlace Fixture.collaborators VNull Fixture.mixed_place).1
  = reverse (@geojsonifyPlace Fixture.collaborators_reversed VNull
               Fixture.mixed_place).1 ∧
  length (@geojsonifyPlace Fixture.collaborators VNull Fixture.mixed_place).1 = 2.
Proof. split; [|split]; vm_compute; reflexivity. Qed.

(** The claim of C1 fails on a document whose [center_point] is present
    and [null]: it has no center point, yet it is not dropped, no
    diagnostic is logged for it, and no collection is returned at all. *)
Lemma geojsonifyPlaces_null_center_point_aborts :
  has Fixture.null_center ["center_point"] = true ∧
  get Fixture.null_center "center_point" = VNull ∧
  @geojsonifyPlaces Fixture.collaborators VNull [Fixture.paris; Fixture.null_center]
  = ([], Throw TypeError).
Proof. split; [|split]; vm_compute; reflexivity. Qed.

Lemma geojsonifyPlaces_drops_without_center_point_witness :
  ∃ logs geojson,
    @geojsonifyPlaces Fixture.collaborators VNull Fixture.sample_docs
    = (logs, Ok geojson) ∧
    length (features geojson) = 2.
Proof.
  destruct (@geojsonifyPlaces_drops_without_center_point
              Fixture.collaborators VNull Fixture.sample_docs)
    as (_ & Hfeatures & Hreturns & _).
  destruct Hreturns as (logs & geojson & Hrun).
  { vm_compute. repeat (constructor; [reflexivity|]). constructor. }
  exists logs, geojson. split; [exact Hrun|].
  destruct (Hfeatures logs geojson Hrun) as [_ ->]. reflexivity.
Defined.

Lemma geojsonifyPlaces_bbox_per_feature_witness :
  ∃ logs' geojson,
    @geojsonifyPlaces Fixture.collaborators VNull Fixture.sample_docs
    = (logs', Ok geojson) ∧
    Forall2 (λ before after,
               (∀ box,
                  properties before !! "bounding_box" = Some box →
                  truthy box = true →
                  bbox after
                  = Some (VArr [get box "min_lon"; get box "min_lat";
                                get box "max_lon"; get box "max_lat"])) ∧
               properties after !! "bounding_box" = None)
            (features
               (GeoJSON_parse
                  (@transformed Fixture.collaborators VNull
                     <$> [Fixture.paris; Fixture.cafe])))
            (features geojson).
Proof.
  apply (@geojsonifyPlaces_bbox_per_feature
           Fixture.collaborators VNull Fixture.sample_docs
           (@geodata Fixture.collaborators VNull Fixture.sample_docs).1
           (@transformed Fixture.collaborators VNull
              <$> [Fixture.paris; Fixture.cafe])).
  vm_compute; reflexivity.
Defined.



Lemma geojsonifyPlaces_bbox_failure_witness :
  @geojsonifyPlaces Fixture.collaborators VNull [Fixture.unparsable]
  = ([error_bbox (Raised (VStr "invalid coordinates"));
      error_geojson
        (GeoJSON_parse
           (extractExtentPoints
              [@transformed Fixture.collaborators VNull Fixture.unparsable]))],
     Ok {| features :=
             @finish Fixture.collaborators
               <$> [@transformed Fixture.collaborators VNull Fixture.unparsable];
           collection_bbox := None |})
  ∧ @geojsonifyPlaces Fixture.collaborators VNull []
    = ([], Ok {| features := @finish Fixture.collaborators <$> [];
                 collection_bbox := None |}).
Proof.
  split.
  - apply (proj1 (@geojsonifyPlaces_bbox_failure
                    Fixture.collaborators VNull [Fixture.unparsable] []
                    [@transformed Fixture.collaborators VNull Fixture.unparsable]
                    ltac:(vm_compute; reflexivity))
                 (Raised (VStr "invalid coordinates"))).
    vm_compute; reflexivity.
  - apply (proj2 (@geojsonifyPlaces_bbox_failure
                    Fixture.collaborators VNull [] [] []
                    ltac:(vm_compute; reflexivity))
                 VNull);
      vm_compute; reflexivity.
Defined.

Lemma geojsonifyPlace_identifier_fields_witness :
  @transformed Fixture.collaborators VNull Fixture.mislabelled !! "id"
  = Some (gid_id (Fixture.decode_gid (get Fixture.mislabelled "_id"))) ∧
  @transformed Fixture.collaborators VNull Fixture.mislabelled !! "source_id"
  = Some (gid_id (Fixture.decode_gid (get Fixture.mislabelled "_id"))) ∧
  @transformed Fixture.collaborators VNull Fixture.mislabelled !! "layer"
  = Some (get Fixture.mislabelled "layer") ∧
  @transformed Fixture.collaborators VNull Fixture.mislabelled !! "source"
  = Some (get Fixture.mislabelled "source") ∧
  @transformed Fixture.collaborators VNull Fixture.mislabelled !! "gid"
  = Some (Fixture.Document_getGid
            (get Fixture.mislabelled "source") (get Fixture.mislabelled "layer")
            (gid_id (Fixture.decode_gid (get Fixture.mislabelled "_id")))).
Proof.
  apply (@geojsonifyPlace_identifier_fields
           Fixture.collaborators VNull Fixture.mislabelled
           (@place_warnings Fixture.collaborators VNull Fixture.mislabelled)
           (@transformed Fixture.collaborators VNull Fixture.mislabelled)).
  - vm_compute; reflexivity.
  - repeat (constructor; [vm_compute; reflexivity|]). constructor.
Defined.

Lemma geojsonifyPlace_debug_witness :
  @transformed Fixture.collaborators VNull Fixture.cafe !! "debug"
  = (if truthy (get Fixture.cafe "debug")
     then Some (get Fixture.cafe "debug")
     else Fixture.collectDetails VNull Fixture.cafe !! "debug").
Proof.
  apply (@geojsonifyPlace_debug Fixture.collaborators VNull Fixture.cafe
           (@place_warnings Fixture.collaborators VNull Fixture.cafe)
           (@transformed Fixture.collaborators VNull Fixture.cafe)).
  vm_compute; reflexivity.
Defined.

Lemma geojsonifyPlaces_deterministic_witness :
  (@geojsonifyPlaces Fixture.collaborators VNull
     [Fixture.paris; Fixture.no_center; Fixture.mixed_place]).2
  = (@geojsonifyPlaces Fixture.collaborators_reversed VNull
       [Fixture.paris; Fixture.no_center; Fixture.mixed_place]).2 ∧
  (@geojsonifyPlaces Fixture.collaborators VNull
     [Fixture.paris; Fixture.no_center; Fixture.mixed_place]).1
  ≡ₚ (@geojsonifyPlaces Fixture.collaborators_reversed VNull
        [Fixture.paris; Fixture.no_center; Fixture.mixed_place]).1 ∧
  (∀ logs geojson,
     @geojsonifyPlaces Fixture.collaborators VNull
       [Fixture.paris; Fixture.no_center; Fixture.mixed_place]
     = (logs, Ok geojson) →
     Forall2 (λ doc feature,
                ∃ l record,
                  @geojsonifyPlace Fixture.collaborators VNull doc = (l, Ok record) ∧
                  feature = @finish Fixture.collaborators record)
             (filter (λ doc, has doc ["center_point"] = true)
                     [Fixture.paris; Fixture.no_center; Fixture.mixed_place])
             (features geojson)).
Proof.
  apply (geojsonifyPlaces_deterministic
           Fixture.collaborators Fixture.collaborators_reversed VNull
           [Fixture.paris; Fixture.no_center; Fixture.mixed_place]).
  repeat split.
Defined.

(** The claim of C7 fails on a document whose own [source] and [layer]
    differ from those its [_id] resolves to: the record takes [layer],
    [source] and the first two parts of [gid] from the document, not from
    the resolved identifier. *)
Lemma geojsonifyPlace_layer_source_not_resolved :
  ∃ logs record,
    @geojsonifyPlace Fixture.collaborators VNull Fixture.mislabelled
    = (logs, Ok record) ∧
    Fixture.decode_gid (get Fixture.mislabelled "_id")
    = {| gid_source := VStr "openstreetmap"; gid_layer := VStr "venue";
         gid_id := VStr "node/42" |} ∧
    record !! "layer" = Some (VStr "locality") ∧
    record !! "source" = Some (VStr "whosonfirst") ∧
    record !! "gid" = Some (VStr "whosonfirst:locality:node/42") ∧
    record !! "layer"
    ≠ Some (gid_layer (Fixture.decode_gid (get Fixture.mislabelled "_id"))) ∧
    record !! "source"
    ≠ Some (gid_source (Fixture.decode_gid (get Fixture.mislabelled "_id"))).
Proof.
  exists (@place_warnings Fixture.collaborators VNull Fixture.mislabelled),
         (@transformed Fixture.collaborators VNull Fixture.mislabelled).
  split; [by apply geojsonifyPlace_eval|].
  repeat split; vm_compute; try reflexivity; intros [=].
Qed.

(** The claim of C8 fails on a document whose [debug] field exists and
    holds [false]: the record has no [debug] key. *)
Lemma geojsonifyPlace_falsy_debug_not_copied :
  ∃ logs record,
    @geojsonifyPlace Fixture.collaborators VNull Fixture.cafe = (logs, Ok record) ∧
    has Fixture.cafe ["debug"] = true ∧
    get Fixture.cafe "debug" = VBool false ∧
    record !! "debug" = None ∧
    record !! "debug" ≠ Some (get Fixture.cafe "debug").
Proof.
  exists (@place_warnings Fixture.collaborators VNull Fixture.cafe),
         (@transformed Fixture.collaborators VNull Fixture.cafe).
  split; [by apply geojsonifyPlace_eval|].
  repeat split; vm_compute; try reflexivity; intros [=].
Qed.

(** * Further properties of the code *)

Section further.
Context `{!Collaborators}.

(** ** geojsonifyPlace: what raises, what is logged, what is kept *)

Lemma addendum_warnings_kind params place d :
  d ∈ addendum_warnings params place → ∃ gid namespace, d = warn_addendum gid namespace.
Proof.
  unfold addendum_warnings. destruct (has place ["addendum"]).
  - intros (namespace & ->)%decode_warnings_kind. eauto.
  - by intros ?%elem_of_nil.
Qed.

(** X1.  Taking the collaborators to return as their contracts say (the
    resolver a triple, the others a value, none raising): the transform
    raises exactly when [center_point] is [undefined] or [null], or when
    [_.has(place, 'name.default')] holds while [place.name] is
    [undefined] or [null] (an own key spelled [name.default] beside no
    [name]).  What it raises is then the TypeError of the failed read,
    before anything is logged.  A place that is not an object at all is
    such a case. *)
Theorem geojsonifyPlace_raises params place :
  ((∃ logs e, geojsonifyPlace params place = (logs, Throw e)) ↔
   nullish (get place "center_point") = true ∨
   (has place ["name"; "default"] = true ∧ nullish (get place "name") = true)) ∧
  (∀ logs e, geojsonifyPlace params place = (logs, Throw e) →
             e = TypeError ∧ logs = []) ∧
  ((∀ fields, place ≠ VObj fields) →
   geojsonifyPlace params place = ([], Throw TypeError)).
Proof.
  assert (transformable place = false ↔
          nullish (get place "center_point") = true ∨
          (has place ["name"; "default"] = true ∧ nullish (get place "name") = true))
    as Hcases.
  { unfold transformable.
    destruct (nullish (get place "center_point")), (has place ["name"; "default"]),
             (nullish (get place "name")); cbn; intuition discriminate. }
  split; [|split].
  - rewrite <- Hcases. split.
    + intros (logs & e & Hrun).
      destruct (transformable place) eqn:Hplace; [|done].
      by rewrite geojsonifyPlace_eval in Hrun.
    + intros Hplace. exists [], TypeError. by apply geojsonifyPlace_throws.
  - intros logs e. destruct (transformable place) eqn:Hplace.
    + by rewrite geojsonifyPlace_eval.
    + rewrite geojsonifyPlace_throws by done. by intros [= <- <-].
  - intros Hplace. apply geojsonifyPlace_throws.
    destruct place; try done. by destruct (Hplace fields).
Qed.

(** X2.  The name, of a transform that returns.  When
    [_.has(place, 'name.default')] holds, the record's [name] is what
    [getStringValue] makes of [place.name.default] and no name warning is
    logged.  When it does not, the record has no [name] and the log opens
    with the one name warning, which carries the gid built from the
    document's own [source] and [layer].  (The Detail Collector is taken
    not to produce a [name].) *)
Theorem geojsonifyPlace_name params place logs record :
  geojsonifyPlace params place = (logs, Ok record) →
  collectDetails params place !! "name" = None →
  if has place ["name"; "default"]
  then record !! "name" = Some (getStringValue (get (get place "name") "default")) ∧
       ∀ gid, warn_no_name gid ∉ logs
  else record !! "name" = None ∧
       ∃ rest,
         logs = warn_no_name
                  (Document_getGid (get place "source") (get place "layer")
                                   (gid_id (decode_gid (get place "_id"))))
                :: rest ∧
         ∀ gid, warn_no_name gid ∉ rest.
Proof.
  intros (_ & -> & ->)%geojsonifyPlace_Ok Hdetails.
  rewrite transformed_lookup, merged_doc_lookup, Hdetails by done.
  unfold place_warnings, name_warnings, named_doc.
  destruct (has place ["name"; "default"]).
  - split; [apply lookup_insert_eq|].
    intros gid (? & ? & ?)%addendum_warnings_kind. done.
  - split.
    + apply base_doc_keys; [|done]. unfold reserved_keys.
      rewrite !not_elem_of_cons. repeat split; try done. apply not_elem_of_nil.
    + eexists. split.
      * unfold base_doc, get. by simplify_map_eq.
      * intros gid (? & ? & ?)%addendum_warnings_kind. done.
Qed.

(** X3.  [Object.assign] lets the Detail Collector win.  Of a transform
    that returns: whatever the collector produces under a key other than
    [addendum], [debug] and [__proto__] is what the record holds under
    that key, the core keys ([id], [lat], ...) included. *)
Theorem geojsonifyPlace_details_win params place key v logs record :
  geojsonifyPlace params place = (logs, Ok record) →
  collectDetails params place !! key = Some v →
  key ≠ "addendum" → key ≠ "debug" → key ≠ "__proto__" →
  record !! key = Some v.
Proof.
  intros (_ & _ & ->)%geojsonifyPlace_Ok Hdetails Haddendum Hdebug Hproto.
  by rewrite transformed_lookup, merged_doc_lookup, Hdetails.
Qed.

(** X4.  [params] reaches nothing but the Detail Collector: two
    configurations for which [collectDetails] answers alike on a place
    give the same result on that place, log included. *)
Theorem geojsonifyPlace_params_only_collectDetails params params' place :
  collectDetails params place = collectDetails params' place →
  geojsonifyPlace params place = geojsonifyPlace params' place.
Proof.
  intros Hdetails. destruct (transformable place) eqn:Hplace.
  - rewrite !geojsonifyPlace_eval by done.
    unfold place_warnings, addendum_warnings, transformed, with_addendum, merged_doc.
    by rewrite Hdetails.
  - by rewrite !geojsonifyPlace_throws.
Qed.

(** X5.  The [country_code] key never goes missing.  Every record a
    transform returns has it (holding [undefined] unless the Detail
    Collector put something there), and neither [addBBox] nor
    [addISO3166Props] takes it away from a feature that has it. *)
Theorem country_code_key_kept params place logs record :
  geojsonifyPlace params place = (logs, Ok record) →
  is_Some (record !! "country_code") ∧
  (collectDetails params place !! "country_code" = None →
   record !! "country_code" = Some VUndefined) ∧
  ∀ feature,
    is_Some (properties feature !! "country_code") →
    is_Some (properties (addISO3166Props (addBBox feature)) !! "country_code").
Proof.
  intros (_ & _ & ->)%geojsonifyPlace_Ok.
  assert (named_doc place !! "country_code" = Some VUndefined) as Hnamed.
  { rewrite named_doc_lookup by done. unfold base_doc. by simplify_map_eq. }
  rewrite transformed_lookup, merged_doc_lookup, Hnamed by done.
  split; [|split].
  - by destruct (collectDetails params place !! _).
  - by intros ->.
  - intros feature Hkey.
    destruct (addISO3166Props_cases (addBBox feature)) as [->|[alpha2 ->]].
    + rewrite addBBox_properties. by rewrite lookup_delete_ne.
    + cbn [properties set_properties]. by rewrite lookup_insert_eq.
Qed.

(** X6.  Of a transform that returns: an [addendum] with nothing to
    enumerate ([null], a number, a boolean, an empty object, array or
    string) is passed over in silence, with no warning about it and no
    [addendum] key attached. *)
Theorem geojsonifyPlace_addendum_nothing_to_decode params place logs record :
  geojsonifyPlace params place = (logs, Ok record) →
  entries (get place "addendum") = [] →
  logs = name_warnings place ∧
  record !! "addendum" = collectDetails params place !! "addendum".
Proof.
  intros (_ & -> & ->)%geojsonifyPlace_Ok Hentries.
  unfold place_warnings, addendum_warnings, transformed, with_addendum.
  rewrite Hentries. split.
  - destruct (has place ["addendum"]); by rewrite app_nil_r.
  - assert (merged_doc params place !! "addendum"
            = collectDetails params place !! "addendum") as Hmerged.
    { rewrite merged_doc_lookup, named_doc_lookup by done.
      rewrite base_doc_keys; [|apply not_reserved; auto|done].
      by destruct (collectDetails params place !! "addendum"). }
    destruct (has place ["addendum"]), (truthy (get place "debug"));
      by rewrite ?lookup_insert_ne.
Qed.

(** X7.  From document to feature.  Of a transform that returns, when
    the Detail Collector produces no [bounding_box]: the feature made of
    the record has a [bbox] exactly when the document's [bounding_box]
    is truthy, and it is then the four edges of that box;
    [addISO3166Props] does not interfere. *)
Theorem bbox_from_document params place logs record :
  geojsonifyPlace params place = (logs, Ok record) →
  collectDetails params place !! "bounding_box" = None →
  bbox (finish record)
  = if truthy (get place "bounding_box")
    then Some (VArr [get (get place "bounding_box") "min_lon";
                     get (get place "bounding_box") "min_lat";
                     get (get place "bounding_box") "max_lon";
                     get (get place "bounding_box") "max_lat"])
    else None.
Proof.
  intros (_ & _ & ->)%geojsonifyPlace_Ok Hdetails.
  assert (transformed params place !! "bounding_box"
          = Some (get place "bounding_box")) as Hbox.
  { rewrite transformed_lookup, merged_doc_lookup, Hdetails by done.
    rewrite named_doc_lookup by done.
    unfold base_doc. by simplify_map_eq. }
  unfold finish. rewrite addISO3166Props_bbox. unfold addBBox.
  assert (get (VObj (properties (getFeature (transformed params place))))
              "bounding_box"
          = get place "bounding_box") as ->
    by (cbn [getFeature properties]; unfold get at 1; by rewrite Hbox).
  by destruct (truthy (get place "bounding_box")).
Qed.

(** ** The two per-feature steps *)

Lemma get_insert_ne (props : object) key key' v :
  key ≠ key' → get (VObj (<[key := v]> props)) key' = get (VObj props) key'.
Proof. intros Hkey. unfold get. by rewrite lookup_insert_ne. Qed.

Lemma get_delete_ne (props : object) key key' :
  key ≠ key' → get (VObj (delete key props)) key' = get (VObj props) key'.
Proof. intros Hkey. unfold get. by rewrite lookup_delete_ne. Qed.

Lemma addISO3166Props_agree f g :
  get (VObj (properties f)) "country_a" = get (VObj (properties g)) "country_a" →
  get (VObj (properties f)) "dependency_a" = get (VObj (properties g)) "dependency_a" →
  (addISO3166Props f = f ∧ addISO3166Props g = g) ∨
  ∃ alpha2,
    addISO3166Props f = set_properties f (<["country_code" := alpha2]> (properties f)) ∧
    addISO3166Props g = set_properties g (<["country_code" := alpha2]> (properties g)).
Proof.
  intros Hcountry Hdependency. unfold addISO3166Props.
  rewrite Hcountry, Hdependency. case_tests; eauto.
Qed.

Lemma addBBox_idempotent feature : addBBox (addBBox feature) = addBBox feature.
Proof.
  unfold addBBox at 1. rewrite addBBox_properties.
  assert (get (VObj (delete "bounding_box" (properties feature))) "bounding_box"
          = VUndefined) as -> by (unfold get; by rewrite lookup_delete_eq).
  cbn [truthy]. rewrite addBBox_properties, delete_delete_eq, <- addBBox_properties.
  by destruct (addBBox feature).
Qed.

Lemma addISO3166Props_idempotent feature :
  addISO3166Props (addISO3166Props feature) = addISO3166Props feature.
Proof.
  destruct (addISO3166Props_agree feature (addISO3166Props feature))
    as [[_ Hsame]|(alpha2 & Hfirst & Hsecond)].
  - unfold get. by rewrite addISO3166Props_other_properties.
  - unfold get. by rewrite addISO3166Props_other_properties.
  - done.
  - rewrite Hsecond, Hfirst. unfold set_properties. cbn [geometry properties bbox].
    by rewrite insert_insert_eq.
Qed.

Lemma addISO3166Props_addBBox feature :
  addISO3166Props (addBBox feature) = addBBox (addISO3166Props feature).
Proof.
  destruct (addISO3166Props_agree (addBBox feature) feature)
    as [[Hafter Hbefore]|(alpha2 & Hafter & Hbefore)].
  - rewrite addBBox_properties. by apply get_delete_ne.
  - rewrite addBBox_properties. by apply get_delete_ne.
  - by rewrite Hafter, Hbefore.
  - rewrite Hafter, Hbefore, addBBox_properties. unfold addBBox.
    cbn [properties set_properties]. rewrite get_insert_ne by done.
    destruct (truthy _); unfold set_properties, set_bbox;
      cbn [geometry properties bbox]; by rewrite delete_insert_ne.
Qed.

(** X8.  [addBBoxPerFeature] touches nothing but [bounding_box] and
    [bbox]: it keeps the number and order of the features, the
    collection's own [bbox] and each geometry; the properties lose
    [bounding_box] and nothing else; and a feature whose [bounding_box] is
    falsy keeps whatever [bbox] it had. *)
Theorem addBBoxPerFeature_frame geojson :
  collection_bbox (addBBoxPerFeature geojson) = collection_bbox geojson ∧
  Forall2 (λ before after,
             geometry after = geometry before ∧
             properties after = delete "bounding_box" (properties before) ∧
             (truthy (get (VObj (properties before)) "bounding_box") = false →
              bbox after = bbox before))
          (features geojson) (features (addBBoxPerFeature geojson)).
Proof.
  split; [done|]. cbn [features addBBoxPerFeature].
  apply Forall2_fmap_r, Forall_Forall2_diag, Forall_forall.
  intros feature _. cbn [compose]. unfold addBBox.
  destruct (truthy _); by repeat split.
Qed.

(** X9.  Running either per-feature step a second time changes nothing. *)
Theorem per_feature_steps_idempotent geojson :
  addBBoxPerFeature (addBBoxPerFeature geojson) = addBBoxPerFeature geojson ∧
  addISO3166PropsPerFeature (addISO3166PropsPerFeature geojson)
  = addISO3166PropsPerFeature geojson.
Proof.
  unfold addBBoxPerFeature, addISO3166PropsPerFeature. cbn [features collection_bbox].
  rewrite <- !list_fmap_compose. split; f_equal; apply list_fmap_ext;
    intros _ feature _; cbn [compose].
  - apply addBBox_idempotent.
  - apply addISO3166Props_idempotent.
Qed.

(** X10.  The two per-feature steps commute: promoting the bbox first and
    annotating the country code second, as [geojsonifyPlaces] does, gives
    the same collection as the other order. *)
Theorem per_feature_steps_commute geojson :
  addISO3166PropsPerFeature (addBBoxPerFeature geojson)
  = addBBoxPerFeature (addISO3166PropsPerFeature geojson).
Proof.
  unfold addBBoxPerFeature, addISO3166PropsPerFeature. cbn [features collection_bbox].
  rewrite <- !list_fmap_compose. f_equal. apply list_fmap_ext.
  intros _ feature _. cbn [compose]. apply addISO3166Props_addBBox.
Qed.

(** X11.  A truthy [country_a] that is not a string (an array of codes,
    a number) ends the step at once: [dependency_a] is not tried, even
    when it would resolve, and the feature is returned as it was. *)
Theorem addISO3166Props_country_a_not_string feature country_a :
  properties feature !! "country_a" = Some country_a →
  truthy country_a = true →
  isString country_a = false →
  addISO3166Props feature = feature.
Proof.
  intros Hcountry Htruthy Hstring. unfold addISO3166Props.
  assert (get (VObj (properties feature)) "country_a" = country_a) as ->
    by (unfold get; by rewrite Hcountry).
  unfold js_or. rewrite !Htruthy, Hstring. done.
Qed.

(** ** Extent points *)

Lemma extractExtentPoints_cons record geodata :
  extractExtentPoints (record :: geodata)
  = extractExtentPoints [record] ++ extractExtentPoints geodata.
Proof.
  unfold extractExtentPoints.
  match goal with |- context [foldl ?f] => set (step := f) end.
  assert (∀ l acc, foldl step acc l = acc ++ foldl step [] l) as Hacc.
  { induction l as [|r l IH]; intros acc; [cbn; by rewrite app_nil_r|].
    cbn [foldl]. rewrite (IH (step acc r)), (IH (step [] r)), app_assoc. f_equal.
    subst step. cbv beta zeta. destruct (truthy _); cbn [app]; by rewrite <- ?app_assoc. }
  cbn [foldl]. apply Hacc.
Qed.

(** X12.  Extent points are collected record by record: the points of a
    concatenation are the points of its parts, one after the other, and
    no record means no point. *)
Theorem extractExtentPoints_app geodata1 geodata2 :
  extractExtentPoints (geodata1 ++ geodata2)
  = extractExtentPoints geodata1 ++ extractExtentPoints geodata2
  ∧ extractExtentPoints [] = [].
Proof.
  split; [|done]. induction geodata1 as [|record geodata1 IH]; [done|].
  cbn [app]. rewrite extractExtentPoints_cons, IH, app_assoc.
  by rewrite <- extractExtentPoints_cons.
Qed.

(** X13.  The exact count: one point per record and one more for each
    record whose [bounding_box] is truthy.  Every point is an object with
    the two keys [lng] and [lat] and no other. *)
Theorem extractExtentPoints_count geodata :
  length (extractExtentPoints geodata)
  = length geodata
    + length (filter (λ record, truthy (get (VObj record) "bounding_box") = true)
                     geodata)
  ∧ Forall (λ pt : object, dom pt = ({[ "lng"; "lat" ]} : gset string))
           (extractExtentPoints geodata).
Proof.
  induction geodata as [|record geodata [IHlength IHshape]]; [by split|].
  assert (extractExtentPoints [record]
          = if truthy (get (VObj record) "bounding_box")
            then [point (get (get (VObj record) "bounding_box") "min_lon")
                        (get (get (VObj record) "bounding_box") "min_lat");
                  point (get (get (VObj record) "bounding_box") "max_lon")
                        (get (get (VObj record) "bounding_box") "max_lat")]
            else [point (get (VObj record) "lng") (get (VObj record) "lat")])
    as Hone.
  { unfold extractExtentPoints. cbn [foldl]. cbv zeta. by destruct (truthy _). }
  assert (∀ lng lat, dom (point lng lat) = ({[ "lng"; "lat" ]} : gset string))
    as Hpoint by (intros; unfold point; by rewrite dom_insert_L, dom_singleton_L).
  rewrite extractExtentPoints_cons, length_app, Forall_app, filter_cons, IHlength, Hone.
  destruct (truthy (get (VObj record) "bounding_box")); case_decide; try done;
    cbn [length]; (split; [lia|]); (split; [|done]); by repeat constructor.
Qed.

(** ** geojsonifyPlaces as a whole *)

Lemma place_logs_bind params places :
  Forall (λ place, transformable place = true) places →
  places ≫= place_warnings params
  = places ≫= (λ place, (geojsonifyPlace params place).1).
Proof.
  induction 1 as [|place places Hplace _ IH]; [done|].
  by rewrite !bind_cons, IH, geojsonifyPlace_eval.
Qed.

(** X14.  When a run ends, taking the collaborators to return as their
    contracts say.  It returns a collection exactly when every document
    that is kept can be transformed: its [center_point] is neither
    [undefined] nor [null], and its [name] is neither when
    [_.has(doc, 'name.default')] holds.  Otherwise it raises, and the
    exception is the TypeError of [geojsonifyPlace], never another; the
    warnings for the dropped documents were logged before it. *)
Theorem geojsonifyPlaces_raises params docs :
  ((∃ logs geojson, geojsonifyPlaces params docs = (logs, Ok geojson)) ↔
   Forall (λ doc, transformable doc = true)
          (filter (λ doc, has doc ["center_point"] = true) docs)) ∧
  (∀ logs e,
     geojsonifyPlaces params docs = (logs, Throw e) →
     e = TypeError ∧
     ∃ rest,
       logs = replicate
                (length (filter (λ doc, has doc ["center_point"] = false) docs))
                warn_no_center_point ++ rest).
Proof.
  split.
  - split.
    + intros (logs & geojson & Hrun). by eapply geojsonifyPlaces_returns.
    + intros Hdocs. eexists _, _. by apply geojsonifyPlaces_eval.
  - intros logs e. rewrite geojsonifyPlaces_unfold.
    destruct (mapM _ _) as [logs' [records|e']] eqn:Hmap; [done|].
    intros [= <- <-]. split; [by eapply mapM_geojsonifyPlace_Throw|eauto].
Qed.

(** X15.  A document without a center point, wherever it stands among
    the documents, costs one warning and nothing else: the outcome is
    that of the run without it, and so is the log once that warning is
    taken off its front. *)
Theorem geojsonifyPlaces_dropped_document params docs1 doc docs2 :
  has doc ["center_point"] = false →
  geojsonifyPlaces params (docs1 ++ doc :: docs2)
  = (warn_no_center_point :: (geojsonifyPlaces params (docs1 ++ docs2)).1,
     (geojsonifyPlaces params (docs1 ++ docs2)).2).
Proof.
  intros Hdoc. rewrite !geojsonifyPlaces_unfold.
  rewrite !filter_app, !filter_cons, Hdoc.
  repeat case_decide; try done.
  rewrite !length_app. cbn [length]. rewrite Nat.add_succ_r, replicate_S.
  by destruct (mapM _ _) as [logs [records|e]].
Qed.

(** X16.  Documents do not influence one another: when the run over
    [docs1 ++ docs2] returns, so do the run over [docs1] and the run over
    [docs2], and its features are the features of the first followed by
    those of the second. *)
Theorem geojsonifyPlaces_features_app params docs1 docs2 logs geojson :
  geojsonifyPlaces params (docs1 ++ docs2) = (logs, Ok geojson) →
  ∃ logs1 geojson1 logs2 geojson2,
    geojsonifyPlaces params docs1 = (logs1, Ok geojson1) ∧
    geojsonifyPlaces params docs2 = (logs2, Ok geojson2) ∧
    features geojson = features geojson1 ++ features geojson2.
Proof.
  intros Hrun. pose proof (geojsonifyPlaces_returns _ _ _ _ Hrun) as Hdocs.
  rewrite geojsonifyPlaces_eval in Hrun by done. injection Hrun as <- <-.
  rewrite filter_app in Hdocs. apply Forall_app in Hdocs as [Hdocs1 Hdocs2].
  eexists _, _, _, _. split; [|split].
  - by apply geojsonifyPlaces_eval.
  - by apply geojsonifyPlaces_eval.
  - cbn [features]. by rewrite filter_app, !fmap_app.
Qed.

(** X17.  When [extent] answers a truthy value, that value is the
    collection's [bbox], unchanged, and nothing more is logged. *)
Theorem geojsonifyPlaces_bbox_success params docs logs records bbox :
  geodata params docs = (logs, Ok records) →
  extent (GeoJSON_parse (extractExtentPoints records)) = Ok bbox →
  truthy bbox = true →
  geojsonifyPlaces params docs
  = (logs, Ok {| features := finish <$> records; collection_bbox := Some bbox |}).
Proof.
  intros Hgeodata Hextent Htruthy.
  rewrite (geojsonifyPlaces_from_geodata _ _ _ _ Hgeodata).
  unfold bbox_errors, computed_bbox. by rewrite Hextent, Htruthy, app_nil_r.
Qed.

(** X18.  The order of the log of a run that returns: first one warning
    per dropped document, then the diagnostics of each surviving document
    in input order, then either nothing or the two bbox errors. *)
Theorem geojsonifyPlaces_log_order params docs logs geojson :
  geojsonifyPlaces params docs = (logs, Ok geojson) →
  ∃ tail,
    logs = replicate (length (filter (λ doc, has doc ["center_point"] = false) docs))
                     warn_no_center_point
           ++ (filter (λ doc, has doc ["center_point"] = true) docs
                 ≫= (λ doc, (geojsonifyPlace params doc).1))
           ++ tail ∧
    (tail = [] ∨ ∃ e points, tail = [error_bbox e; error_geojson points]).
Proof.
  intros Hrun. pose proof (geojsonifyPlaces_returns _ _ _ _ Hrun) as Hdocs.
  rewrite geojsonifyPlaces_eval in Hrun by done. injection Hrun as <- <-.
  eexists. split.
  - by rewrite place_logs_bind.
  - unfold bbox_errors. destruct (extent _); eauto.
Qed.

(** X19.  From document to extent points.  Of a transform that returns,
    when the Detail Collector produces none of [bounding_box], [lat] and
    [lng]: a document with a truthy [bounding_box] contributes the two
    corners of that box, and any other document the single point whose
    [lng] is its parsed [center_point.lon] and whose [lat] is its parsed
    [center_point.lat].  Each point is an object of the two keys [lng]
    and [lat]. *)
Theorem extent_points_from_document params place logs record :
  geojsonifyPlace params place = (logs, Ok record) →
  Forall (λ key, collectDetails params place !! key = None)
         ["bounding_box"; "lat"; "lng"] →
  extractExtentPoints [record]
  = if truthy (get place "bounding_box")
    then [ <["lng" := get (get place "bounding_box") "min_lon"]>
             (<["lat" := get (get place "bounding_box") "min_lat"]> ∅);
           <["lng" := get (get place "bounding_box") "max_lon"]>
             (<["lat" := get (get place "bounding_box") "max_lat"]> ∅) ]
    else [ <["lng" := VNum (parseFloat (get (get place "center_point") "lon"))]>
             (<["lat" := VNum (parseFloat (get (get place "center_point") "lat"))]>
                ∅) ].
Proof.
  intros (_ & _ & ->)%geojsonifyPlace_Ok Hdetails.
  rewrite Forall_forall in Hdetails.
  assert (∀ key, key ∈ ["bounding_box"; "lat"; "lng"] →
                 get (VObj (transformed params place)) key
                 = get (VObj (base_doc place)) key) as Hkey.
  { intros key Hin. unfold get. rewrite transformed_reserved; [done| |by apply Hdetails].
    unfold reserved_keys. rewrite !elem_of_cons in Hin. rewrite !elem_of_cons.
    intuition. }
  unfold extractExtentPoints. cbn [foldl]. cbv zeta.
  rewrite !Hkey by repeat constructor.
  unfold base_doc, get at 1 2 3 4 5 6 7 8. simplify_map_eq.
  unfold point. rewrite <- !insert_empty.
  by destruct (truthy (get place "bounding_box")).
Qed.

End further.

(** ** Concrete runs of the further properties *)

Lemma geojsonifyPlace_name_witness :
  if has Fixture.paris ["name"; "default"]
  then @transformed Fixture.collaborators VNull Fixture.paris !! "name"
       = Some (Fixture.getStringValue (get (get Fixture.paris "name") "default")) ∧
       ∀ gid, warn_no_name gid ∉ @place_warnings Fixture.collaborators VNull Fixture.paris
  else @transformed Fixture.collaborators VNull Fixture.paris !! "name" = None ∧
       ∃ rest,
         @place_warnings Fixture.collaborators VNull Fixture.paris
         = warn_no_name
             (Fixture.Document_getGid
                (get Fixture.paris "source") (get Fixture.paris "layer")
                (gid_id (Fixture.decode_gid (get Fixture.paris "_id"))))
           :: rest ∧
         ∀ gid, warn_no_name gid ∉ rest.
Proof.
  apply (@geojsonifyPlace_name Fixture.collaborators VNull Fixture.paris
           (@place_warnings Fixture.collaborators VNull Fixture.paris)
           (@transformed Fixture.collaborators VNull Fixture.paris));
    vm_compute; reflexivity.
Defined.

Lemma geojsonifyPlace_details_win_witness :
  @transformed Fixture.collaborators VNull Fixture.cafe !! "country_a"
  = Some (VStr "USA").
Proof.
  apply (@geojsonifyPlace_details_win
           Fixture.collaborators VNull Fixture.cafe "country_a" (VStr "USA")
           (@place_warnings Fixture.collaborators VNull Fixture.cafe)
           (@transformed Fixture.collaborators VNull Fixture.cafe));
    first [vm_compute; reflexivity | discriminate].
Defined.

Lemma geojsonifyPlace_params_only_collectDetails_witness :
  @geojsonifyPlace Fixture.collaborators VNull Fixture.cafe
  = @geojsonifyPlace Fixture.collaborators (VBool true) Fixture.cafe.
Proof.
  apply (@geojsonifyPlace_params_only_collectDetails
           Fixture.collaborators VNull (VBool true) Fixture.cafe).
  reflexivity.
Defined.

Lemma country_code_key_kept_witness :
  is_Some (@transformed Fixture.collaborators VNull Fixture.paris !! "country_code") ∧
  (Fixture.collectDetails VNull Fixture.paris !! "country_code" = None →
   @transformed Fixture.collaborators VNull Fixture.paris !! "country_code"
   = Some VUndefined) ∧
  ∀ feature,
    is_Some (properties feature !! "country_code") →
    is_Some (properties (@addISO3166Props Fixture.collaborators (addBBox feature))
               !! "country_code").
Proof.
  apply (@country_code_key_kept Fixture.collaborators VNull Fixture.paris
           (@place_warnings Fixture.collaborators VNull Fixture.paris)
           (@transformed Fixture.collaborators VNull Fixture.paris)).
  vm_compute; reflexivity.
Defined.

Lemma geojsonifyPlace_addendum_nothing_to_decode_witness :
  @place_warnings Fixture.collaborators VNull Fixture.paris
  = @name_warnings Fixture.collaborators Fixture.paris ∧
  @transformed Fixture.collaborators VNull Fixture.paris !! "addendum"
  = Fixture.collectDetails VNull Fixture.paris !! "addendum".
Proof.
  apply (@geojsonifyPlace_addendum_nothing_to_decode
           Fixture.collaborators VNull Fixture.paris
           (@place_warnings Fixture.collaborators VNull Fixture.paris)
           (@transformed Fixture.collaborators VNull Fixture.paris));
    vm_compute; reflexivity.
Defined.

Lemma bbox_from_document_witness :
  bbox (@finish Fixture.collaborators
          (@transformed Fixture.collaborators VNull Fixture.paris))
  = if truthy (get Fixture.paris "bounding_box")
    then Some (VArr [get (get Fixture.paris "bounding_box") "min_lon";
                     get (get Fixture.paris "bounding_box") "min_lat";
                     get (get Fixture.paris "bounding_box") "max_lon";
                     get (get Fixture.paris "bounding_box") "max_lat"])
    else None.
Proof.
  apply (@bbox_from_document Fixture.collaborators VNull Fixture.paris
           (@place_warnings Fixture.collaborators VNull Fixture.paris)
           (@transformed Fixture.collaborators VNull Fixture.paris));
    vm_compute; reflexivity.
Defined.

Lemma addISO3166Props_country_a_not_string_witness :
  @addISO3166Props Fixture.collaborators
    (getFeature {[ "country_a" := VArr [VStr "USA"]; "dependency_a" := VStr "PRI" ]})
  = getFeature {[ "country_a" := VArr [VStr "USA"]; "dependency_a" := VStr "PRI" ]}.
Proof.
  apply (@addISO3166Props_country_a_not_string Fixture.collaborators
           (getFeature {[ "country_a" := VArr [VStr "USA"];
                          "dependency_a" := VStr "PRI" ]})
           (VArr [VStr "USA"]));
    vm_compute; reflexivity.
Defined.

Lemma geojsonifyPlaces_dropped_document_witness :
  @geojsonifyPlaces Fixture.collaborators VNull
     ([Fixture.paris] ++ Fixture.no_center :: [Fixture.cafe])
  = (warn_no_center_point
       :: (@geojsonifyPlaces Fixture.collaborators VNull
             ([Fixture.paris] ++ [Fixture.cafe])).1,
     (@geojsonifyPlaces Fixture.collaborators VNull
        ([Fixture.paris] ++ [Fixture.cafe])).2).
Proof.
  apply (@geojsonifyPlaces_dropped_document Fixture.collaborators VNull
           [Fixture.paris] Fixture.no_center [Fixture.cafe]).
  vm_compute; reflexivity.
Defined.

Lemma geojsonifyPlaces_features_app_witness :
  ∃ logs1 geojson1 logs2 geojson2,
    @geojsonifyPlaces Fixture.collaborators VNull [Fixture.paris] = (logs1, Ok geojson1) ∧
    @geojsonifyPlaces Fixture.collaborators VNull [Fixture.cafe] = (logs2, Ok geojson2) ∧
    features
      {| features :=
           @finish Fixture.collaborators
             <$> (@transformed Fixture.collaborators VNull
                    <$> [Fixture.paris; Fixture.cafe]);
         collection_bbox :=
           Some (VArr [VNum (-74); VNum 40.75; VNum 2.5; VNum 49]) |}
    = features geojson1 ++ features geojson2.
Proof.
  apply (@geojsonifyPlaces_features_app Fixture.collaborators VNull
           [Fixture.paris] [Fixture.cafe]
           (@geojsonifyPlaces Fixture.collaborators VNull
              [Fixture.paris; Fixture.cafe]).1
           {| features :=
                @finish Fixture.collaborators
                  <$> (@transformed Fixture.collaborators VNull
                         <$> [Fixture.paris; Fixture.cafe]);
              collection_bbox :=
                Some (VArr [VNum (-74); VNum 40.75; VNum 2.5; VNum 49]) |}).
  vm_compute; reflexivity.
Defined.

Lemma geojsonifyPlaces_bbox_success_witness :
  @geojsonifyPlaces Fixture.collaborators VNull [Fixture.paris]
  = ([], Ok {| features :=
                 @finish Fixture.collaborators
                   <$> [@transformed Fixture.collaborators VNull Fixture.paris];
               collection_bbox :=
                 Some (VArr [VNum 2.25; VNum 48.75; VNum 2.5; VNum 49]) |}).
Proof.
  apply (@geojsonifyPlaces_bbox_success Fixture.collaborators VNull [Fixture.paris] []
           [@transformed Fixture.collaborators VNull Fixture.paris]
           (VArr [VNum 2.25; VNum 48.75; VNum 2.5; VNum 49]));
    vm_compute; reflexivity.
Defined.

Lemma geojsonifyPlaces_log_order_witness :
  ∃ tail,
    (@geojsonifyPlaces Fixture.collaborators VNull Fixture.sample_docs).1
    = replicate (length (filter (λ doc, has doc ["center_point"] = false)
                                Fixture.sample_docs))
                warn_no_center_point
      ++ (filter (λ doc, has doc ["center_point"] = true) Fixture.sample_docs
            ≫= (λ doc, (@geojsonifyPlace Fixture.collaborators VNull doc).1))
      ++ tail ∧
    (tail = [] ∨ ∃ e points, tail = [error_bbox e; error_geojson points]).
Proof.
  apply (@geojsonifyPlaces_log_order Fixture.collaborators VNull Fixture.sample_docs
           (@geojsonifyPlaces Fixture.collaborators VNull Fixture.sample_docs).1
           {| features :=
                @finish Fixture.collaborators
                  <$> (@transformed Fixture.collaborators VNull
                         <$> [Fixture.paris; Fixture.cafe]);
              collection_bbox :=
                Some (VArr [VNum (-74); VNum 40.75; VNum 2.5; VNum 49]) |}).
  vm_compute; reflexivity.
Defined.

Lemma extent_points_from_document_witness :
  extractExtentPoints [@transformed Fixture.collaborators VNull Fixture.cafe]
  = if truthy (get Fixture.cafe "bounding_box")
    then [ <["lng" := get (get Fixture.cafe "bounding_box") "min_lon"]>
             (<["lat" := get (get Fixture.cafe "bounding_box") "min_lat"]> ∅);
           <["lng" := get (get Fixture.cafe "bounding_box") "max_lon"]>
             (<["lat" := get (get Fixture.cafe "bounding_box") "max_lat"]> ∅) ]
    else [ <["lng" := VNum (Fixture.parseFloat
                              (get (get Fixture.cafe "center_point") "lon"))]>
             (<["lat" := VNum (Fixture.parseFloat
                                 (get (get Fixture.cafe "center_point") "lat"))]>
                ∅) ].
Proof.
  apply (@extent_points_from_document Fixture.collaborators VNull Fixture.cafe
           (@place_warnings Fixture.collaborators VNull Fixture.cafe)
           (@transformed Fixture.collaborators VNull Fixture.cafe)).
  - vm_compute; reflexivity.
  - repeat (constructor; [vm_compute; reflexivity|]). constructor.
Defined.
